(** * The epoch trainer of the DSC deep-learning workshop notebook

    A shallow embedding of the three pieces of control logic that
    [DSC_Workshop_Neural_Nets.ipynb] defines itself: the functions [train]
    and [test] and the two copies of the epoch loop.

    Conventions of the embedding.
    - Python floats and tensor entries are exact rationals ([Q]) in the
      world; where rounding decides a statement it is stated in the format
      the code uses: binary64 for Python's own arithmetic (the kernel's
      primitive floats), binary32 for the optimizer's update of the
      parameter tensors ([Binary32], on the Standard Library's
      specification of IEEE 754).
    - The objects the notebook mutates (the model's parameters and their
      [.grad] buffers, the [model.training] flag, torch's global
      gradient-tracking flag, the sampler's generator, standard output) live
      in one record, [World], threaded by a state-and-exception monad [M].
    - Every call into a collaborator (model, loss function, autograd,
      optimizer) is logged in [trace], oldest first, so that the order of
      the calls can be stated.
    - The collaborators themselves (the network's forward pass, the loss,
      the gradient autograd computes, the sampler's permutation) are
      parameters of the development; they are total functions, so an
      exception raised inside a forward pass is outside the model.
    - [X.to(device)] moves a tensor and is the identity here. *)

From Stdlib Require Import List Arith ZArith QArith Qminmax Lia Bool Permutation.
From Stdlib Require Import Floats.PrimFloat.
From Stdlib Require Floats.SpecFloat.
From Stdlib Require String.
Import ListNotations.

Set Implicit Arguments.

(** ** Numbers *)

(** [sum(l)] *)
Definition Qsum (l : list Q) : Q := fold_right Qplus 0 l.

(** the arithmetic mean of a sequence of numbers *)
Definition mean (l : list Q) : Q := Qsum l / inject_Z (Z.of_nat (length l)).

Definition Q_of_nat (n : nat) : Q := inject_Z (Z.of_nat n).

(** Python's [b > a] *)
Definition Qgt_bool (b a : Q) : bool := negb (Qle_bool b a).

(** Python's [max(a, b)]: the first argument is kept unless the second is
    strictly greater. *)
Definition py_max (a b : Q) : Q := if Qgt_bool b a then b else a.

(** [ceil(n / k)] on naturals, the way [len(DataLoader)] computes it. *)
Definition ceil_div (n k : nat) : nat := (n + k - 1) / k.

(** Index of the first maximal entry: [torch.argmax] along the class
    dimension returns the index of the first maximal value.  [best] is the
    running maximum, found at [best_i]; [i] is the index of the head of
    [row]. *)
Fixpoint argmax_from (best_i : nat) (best : Q) (i : nat) (row : list Q) : nat :=
  match row with
  | [] => best_i
  | x :: rest =>
      if Qgt_bool x best then argmax_from i x (S i) rest
      else argmax_from best_i best (S i) rest
  end.

(** torch refuses an empty row; the model answers 0 there. *)
Definition argmax (row : list Q) : nat :=
  match row with
  | [] => 0%nat
  | x :: rest => argmax_from 0 x 1 rest
  end.

(** [(preds.argmax(1) == y).type(torch.float).sum().item()]: the number of
    rows whose argmax is the row's label. *)
Definition count_correct (scores : list (list Q)) (y : list nat) : nat :=
  length (filter (fun ry => argmax (fst ry) =? snd ry) (combine scores y)).

(** Consecutive chunks of [k] elements.  [fuel] bounds the number of chunks;
    [length l] is enough as soon as [0 < k]. *)
Fixpoint chunks_fuel {A : Type} (fuel k : nat) (l : list A) : list (list A) :=
  match fuel, l with
  | _, [] => []
  | O, _ :: _ => []
  | S fuel', _ :: _ => firstn k l :: chunks_fuel fuel' k (skipn k l)
  end.

Definition chunks {A : Type} (k : nat) (l : list A) : list (list A) :=
  chunks_fuel (length l) k l.

(** [param.add_(grad, alpha=-lr)] for every parameter that has a gradient:
    plain SGD, no momentum, no weight decay, as both optimizers of the
    notebook are built ([torch.optim.SGD(model.parameters(), lr=0.005)]).
    Here the sum and the product are exact; [Binary32.sgd_update] below is
    the same update in the arithmetic of the parameter tensors. *)
Fixpoint sgd_update (lr : Q) (ps gs : list Q) : list Q :=
  match ps, gs with
  | p :: ps', g :: gs' => (p + - lr * g) :: sgd_update lr ps' gs'
  | _, _ => ps
  end.

(** The same update over any numbers with a sum, a product and a
    negation. *)
Fixpoint sgd_update_with {N : Type} (add mul : N -> N -> N) (opp : N -> N)
    (lr : N) (ps gs : list N) : list N :=
  match ps, gs with
  | p :: ps', g :: gs' => add p (mul (opp lr) g) :: sgd_update_with add mul opp lr ps' gs'
  | _, _ => ps
  end.

(** ** Binary32 *)

(** The parameters of [nn.Linear] and their gradients are [torch.float32]
    tensors: IEEE 754 binary32, rounding to nearest, ties to even. *)
Module Binary32.

Definition prec : Z := 24%Z.
Definition emax : Z := 128%Z.

Definition float32 : Type := SpecFloat.spec_float.

Definition add : float32 -> float32 -> float32 := SpecFloat.SFadd prec emax.
Definition mul : float32 -> float32 -> float32 := SpecFloat.SFmul prec emax.
Definition div : float32 -> float32 -> float32 := SpecFloat.SFdiv prec emax.
Definition opp : float32 -> float32 := SpecFloat.SFopp.

(** the binary32 number nearest to the value [m * 2^e] *)
Definition round (m e : Z) : float32 := SpecFloat.binary_normalize prec emax m e false.

Definition of_Z (z : Z) : float32 := round z 0%Z.



(** [optimizer.step()] on binary32 tensors: the product [-lr * g] is
    rounded, then the sum with the parameter is rounded. *)
Definition sgd_update (lr : float32) (ps gs : list float32) : list float32 :=
  sgd_update_with add mul opp lr ps gs.

(** [lr=0.005] as a binary32 number *)
Definition lr : float32 := div (of_Z 5%Z) (of_Z 1000%Z).


End Binary32.

(** [.grad] accumulation of [backward()]: an empty buffer ([None]) is set,
    a present one is added to. *)
Fixpoint accumulate (gs new : list Q) : list Q :=
  match gs, new with
  | [], _ => new
  | _, [] => gs
  | g :: gs', n :: new' => (g + n) :: accumulate gs' new'
  end.

(** ** Collaborators *)

(** What the notebook takes from torch and torchvision.  [forward p m X] is
    [model(X)] at parameters [p] with [model.training = m]: one row of class
    scores per sample.  [autograd p m X y] is the gradient of
    [loss_fn(model(X), y)] with respect to the parameters, at [p].
    [randperm] is the order a shuffling sampler draws from its generator. *)
Class Collaborators : Type := {
  Image : Type;
  Seed : Type;
  randperm : Seed -> list (Image * nat) -> list (Image * nat);
  next_seed : Seed -> Seed;
  forward : list Q -> bool -> list Image -> list (list Q);
  loss_fn : list (list Q) -> list nat -> Q;
  autograd : list Q -> bool -> list Image -> list nat -> list Q;
  lr : Q
}.

Section Notebook.

Context {C : Collaborators}.

(** one labelled sample of an [ImageFolder] *)
Definition Sample : Type := Image * nat.

(** a collated batch [(X, y)] *)
Definition Batch : Type := list Image * list nat.

(** [DataLoader(dataset, batch_size=..., shuffle=...)], [drop_last=False] *)
Record DataLoader : Type := mkDataLoader {
  dataset : list Sample;
  batch_size : nat;
  shuffle : bool
}.

(** [len(dataloader)] *)
Definition len_dataloader (dl : DataLoader) : nat :=
  ceil_div (length (dataset dl)) (batch_size dl).

(** the default [collate_fn]: a list of samples becomes [(X, y)] *)
Definition collate (b : list Sample) : Batch := (map fst b, map snd b).

Definition batches_of (k : nat) (samples : list Sample) : list Batch :=
  map collate (chunks k samples).

(** ** The world *)

Inductive Event : Type :=
| EvTrainMode                                  (* model.train() *)
| EvEvalMode                                   (* model.eval() *)
| EvNoGradEnter                                (* entering torch.no_grad() *)
| EvNoGradExit                                 (* leaving it *)
| EvForward (X : list Image) (tracked : bool)  (* model(X) *)
| EvLoss (value : Q)                           (* loss_fn(pred, y) *)
| EvZeroGrad                                   (* optimizer.zero_grad() *)
| EvBackward                                   (* loss.backward() *)
| EvStep.                                      (* optimizer.step() *)

(** what the epoch loops print *)
Inductive Line : Type :=
| Progress (epoch_number : nat) (train_loss val_loss val_correct : Q)
| BestScore (best : Q).

Record World : Type := mkWorld {
  params : list Q;
  grads : list Q;
  training : bool;
  grad_enabled : bool;
  rng : Seed;
  trace : list Event;
  stdout : list Line
}.

Definition set_params (p : list Q) (w : World) : World :=
  mkWorld p (grads w) (training w) (grad_enabled w) (rng w) (trace w) (stdout w).

Definition set_grads (g : list Q) (w : World) : World :=
  mkWorld (params w) g (training w) (grad_enabled w) (rng w) (trace w) (stdout w).

Definition set_training (m : bool) (w : World) : World :=
  mkWorld (params w) (grads w) m (grad_enabled w) (rng w) (trace w) (stdout w).

Definition set_grad_enabled (b : bool) (w : World) : World :=
  mkWorld (params w) (grads w) (training w) b (rng w) (trace w) (stdout w).

Definition set_rng (s : Seed) (w : World) : World :=
  mkWorld (params w) (grads w) (training w) (grad_enabled w) s (trace w) (stdout w).

Definition log (e : Event) (w : World) : World :=
  mkWorld (params w) (grads w) (training w) (grad_enabled w) (rng w)
          (trace w ++ [e]) (stdout w).

Definition emit (l : Line) (w : World) : World :=
  mkWorld (params w) (grads w) (training w) (grad_enabled w) (rng w)
          (trace w) (stdout w ++ [l]).

(** ** The monad: state and exceptions *)

Inductive Exn : Type := ZeroDivisionError | RuntimeError.

Inductive Outcome (A : Type) : Type :=
| Ok (a : A) (w : World)
| Raised (e : Exn) (w : World).

Arguments Raised {A} e w.

Definition M (A : Type) : Type := World -> Outcome A.

Definition ret {A : Type} (a : A) : M A := fun w => Ok a w.

Definition bind {A B : Type} (c : M A) (k : A -> M B) : M B :=
  fun w => match c w with
           | Ok a w' => k a w'
           | Raised e w' => Raised e w'
           end.

Definition raise {A : Type} (e : Exn) : M A := fun w => Raised e w.

Definition modify (f : World -> World) : M unit := fun w => Ok tt (f w).

Definition world_of {A : Type} (o : Outcome A) : World :=
  match o with Ok _ w => w | Raised _ w => w end.

Definition value_of {A : Type} (o : Outcome A) : option A :=
  match o with Ok a _ => Some a | Raised _ _ => None end.

Notation "x <- c ;; k" := (bind c (fun x => k))
  (at level 61, c at next level, right associativity).
Notation "c ;;; k" := (bind c (fun _ => k))
  (at level 61, right associativity).

(** [for x in xs: acc = body(x, acc)] *)
Fixpoint for_each {A S : Type} (xs : list A) (body : A -> S -> M S) (acc : S) : M S :=
  match xs with
  | [] => ret acc
  | x :: xs' => acc' <- body x acc ;; for_each xs' body acc'
  end.

(** [a / n] for a number [a] and a length [n] *)
Definition py_div (a : Q) (n : nat) : M Q :=
  if (n =? 0)%nat then raise ZeroDivisionError else ret (a / Q_of_nat n).

(** ** Collaborator calls *)

(** A prediction tensor: its values and, when gradient tracking was on at
    the forward pass, the point the graph was recorded at. *)
Record Pred : Type := mkPred {
  scores : list (list Q);
  pred_graph : option (list Q * bool * list Image)
}.

(** A scalar loss tensor: [item] is [loss.item()], [loss_grad] the gradient
    [loss.backward()] accumulates, absent when the graph was not recorded. *)
Record Loss : Type := mkLoss {
  item : Q;
  loss_grad : option (list Q)
}.

Definition model_train : M unit :=
  modify (fun w => log EvTrainMode (set_training true w)).

Definition model_eval : M unit :=
  modify (fun w => log EvEvalMode (set_training false w)).

Definition model_call (X : list Image) : M Pred := fun w =>
  Ok (mkPred (forward (params w) (training w) X)
             (if grad_enabled w then Some (params w, training w, X) else None))
     (log (EvForward X (grad_enabled w)) w).

Definition loss_call (pred : Pred) (y : list nat) : M Loss := fun w =>
  let v := loss_fn (scores pred) y in
  Ok (mkLoss v
        (match pred_graph pred with
         | Some (p, m, X) => Some (autograd p m X y)
         | None => None
         end))
     (log (EvLoss v) w).

(** [optimizer.zero_grad()], gradients set to [None] *)
Definition zero_grad : M unit :=
  modify (fun w => log EvZeroGrad (set_grads [] w)).

(** [loss.backward()]; torch raises a [RuntimeError] on a loss that does not
    require grad. *)
Definition backward (loss : Loss) : M unit := fun w =>
  match loss_grad loss with
  | Some g => Ok tt (log EvBackward (set_grads (accumulate (grads w) g) w))
  | None => Raised RuntimeError w
  end.

(** [optimizer.step()] *)
Definition optimizer_step : M unit :=
  modify (fun w => log EvStep (set_params (sgd_update lr (params w) (grads w)) w)).

(** [with torch.no_grad(): body]: tracking is switched off for the body and
    restored on every exit path. *)
Definition with_no_grad {A : Type} (body : M A) : M A := fun w =>
  let saved := grad_enabled w in
  match body (log EvNoGradEnter (set_grad_enabled false w)) with
  | Ok a w' => Ok a (log EvNoGradExit (set_grad_enabled saved w'))
  | Raised e w' => Raised e (log EvNoGradExit (set_grad_enabled saved w'))
  end.

(** The batches one iteration over the loader yields.  A shuffling loader
    draws a fresh order from the generator. *)
Definition iter_dataloader (dl : DataLoader) : M (list Batch) := fun w =>
  if shuffle dl
  then Ok (batches_of (batch_size dl) (randperm (rng w) (dataset dl)))
          (set_rng (next_seed (rng w)) w)
  else Ok (batches_of (batch_size dl) (dataset dl)) w.

Definition print (l : Line) : M unit := modify (emit l).

(** ** [train] *)

(** [train(dataloader, model, loss_fn, optimizer)] and
    [test(dataloader, model, loss_fn)]: the model, the loss function and the
    optimizer the notebook passes are those of the collaborators; the
    model's state is in the world. *)

(** The body of the loop over the batches; the index [enumerate] provides
    is not used. *)
Definition train_step (b : Batch) (running_loss : Q) : M Q :=
  let (X, y) := b in
  pred <- model_call X ;;
  loss <- loss_call pred y ;;
  zero_grad ;;;
  backward loss ;;;
  optimizer_step ;;;
  ret (running_loss + item loss).

Definition train (dataloader : DataLoader) : M Q :=
  let num_batches := len_dataloader dataloader in
  model_train ;;;
  batches <- iter_dataloader dataloader ;;
  running_loss <- for_each batches train_step 0 ;;
  avg_loss <- py_div running_loss num_batches ;;
  ret avg_loss.

(** ** [test] *)

Definition test_step (b : Batch) (acc : Q * Q) : M (Q * Q) :=
  let (X, y) := b in
  let (running_loss, correct) := acc in
  preds <- model_call X ;;
  loss <- loss_call preds y ;;
  ret (running_loss + item loss,
       correct + Q_of_nat (count_correct (scores preds) y)).

Definition test (dataloader : DataLoader) : M (Q * Q) :=
  let size := length (dataset dataloader) in
  let num_batches := len_dataloader dataloader in
  model_eval ;;;
  acc <- with_no_grad
           (batches <- iter_dataloader dataloader ;;
            for_each batches test_step (0, 0)) ;;
  avg_loss <- py_div (fst acc) num_batches ;;
  correct <- py_div (snd acc) size ;;
  ret (correct * 100, avg_loss).

(** ** The epoch loops *)

(** The notebook's globals that the loop updates. *)
Record Run : Type := mkRun {
  best_score : Q;
  train_losses : list Q;
  val_losses : list Q
}.

Definition init_run : Run := mkRun 0 [] [].

(** first copy: [epoch % 5 == 0] *)
Definition report_demo (epochs epoch : nat) : bool := (epoch mod 5 =? 0)%nat.

(** exercise copy: [epoch % 5 == 0 or epoch + 1 == epochs] *)
Definition report_exercise (epochs epoch : nat) : bool :=
  (epoch mod 5 =? 0)%nat || (epoch + 1 =? epochs)%nat.

(** The body both copies share; [report] is the condition of the [if]. *)
Definition epoch_body (report : nat -> bool)
    (train_dataloader val_dataloader : DataLoader) (epoch : nat) (r : Run) : M Run :=
  train_loss <- train train_dataloader ;;
  vv <- test val_dataloader ;;
  let (val_correct, val_loss) := vv in
  let train_losses' := train_losses r ++ [train_loss] in
  let val_losses' := val_losses r ++ [val_loss] in
  (if report epoch
   then print (Progress (epoch + 1) train_loss val_loss val_correct)
   else ret tt) ;;;
  ret (mkRun (py_max (best_score r) val_correct) train_losses' val_losses').

(** [for epoch in range(epochs): ...] *)
Definition epochs_from (report : nat -> bool)
    (train_dataloader val_dataloader : DataLoader) (n : nat) (r : Run) : M Run :=
  for_each (seq 0 n) (epoch_body report train_dataloader val_dataloader) r.

(** A whole cell: the globals are initialised, the loop runs, the best score
    is printed.  Before that the first copy re-initialises the layers of the
    model and the exercise copy builds a new model and a new optimizer; the
    loop is modelled from the world this leaves. *)
Definition epoch_loop_with (report : nat -> nat -> bool)
    (train_dataloader val_dataloader : DataLoader) (epochs : nat) : M Run :=
  r <- epochs_from (report epochs) train_dataloader val_dataloader epochs init_run ;;
  print (BestScore (best_score r)) ;;;
  ret r.

Definition epochs : nat := 100.

Definition epoch_loop (train_dataloader val_dataloader : DataLoader) : M Run :=
  epoch_loop_with report_demo train_dataloader val_dataloader epochs.

Definition epoch_loop_exercise (train_dataloader val_dataloader : DataLoader) : M Run :=
  epoch_loop_with report_exercise train_dataloader val_dataloader epochs.

End Notebook.

Arguments Raised {C A} e w.

Notation "x <- c ;; k" := (bind c (fun x => k))
  (at level 61, c at next level, right associativity).
Notation "c ;;; k" := (bind c (fun _ => k))
  (at level 61, right associativity).

(** ** Vocabulary of the statements *)

Section Vocabulary.

Context {C : Collaborators}.

(** The calls one training step makes, in order, on inputs [X] with loss
    value [v]. *)
Definition step_events (X : list Image) (v : Q) : list Event :=
  [EvForward X true; EvLoss v; EvZeroGrad; EvBackward; EvStep].

(** The calls of a pass of training steps over the inputs [Xs] with loss
    values [vs]. *)
Fixpoint pass_events (Xs : list (list Image)) (vs : list Q) : list Event :=
  match Xs, vs with
  | X :: Xs', v :: vs' => step_events X v ++ pass_events Xs' vs'
  | _, _ => []
  end.

(** The calls of a pass of evaluation steps. *)
Fixpoint eval_events (Xs : list (list Image)) (vs : list Q) : list Event :=
  match Xs, vs with
  | X :: Xs', v :: vs' => [EvForward X false; EvLoss v] ++ eval_events Xs' vs'
  | _, _ => []
  end.


(** the inputs of the forward passes a trace records, in order *)
Definition forward_inputs (tr : list Event) : list (list Image) :=
  flat_map (fun e => match e with EvForward X _ => [X] | _ => [] end) tr.

(** the batches an iteration over [dl] yields when it starts in world [w] *)
Definition yielded (dl : DataLoader) (w : World) : list Batch :=
  batches_of (batch_size dl)
    (if shuffle dl then randperm (rng w) (dataset dl) else dataset dl).

(** the sampler's law: what it draws is a permutation of the dataset *)
Definition sampler_permutes : Prop :=
  forall (s : Seed) (l : list Sample), Permutation (randperm s l) l.

(** the world after the calls [tr] were logged *)
Definition log_all (tr : list Event) (w : World) : World :=
  mkWorld (params w) (grads w) (training w) (grad_enabled w) (rng w)
          (trace w ++ tr) (stdout w).

(** What the loop of [test] accumulates over [batches], as a function of the
    parameters [p] and the mode [m] of the model. *)
Fixpoint eval_pass (p : list Q) (m : bool) (batches : list Batch) (acc : Q * Q) : Q * Q :=
  match batches with
  | [] => acc
  | b :: rest =>
      eval_pass p m rest
        (fst acc + loss_fn (forward p m (fst b)) (snd b),
         snd acc + Q_of_nat (count_correct (forward p m (fst b)) (snd b)))
  end.

(** the loss of each batch at parameters [p] *)
Definition eval_losses (p : list Q) (m : bool) (batches : list Batch) : list Q :=
  map (fun b => loss_fn (forward p m (fst b)) (snd b)) batches.

(** the number of correctly classified samples over [batches] *)
Definition total_correct (p : list Q) (m : bool) (batches : list Batch) : nat :=
  list_sum (map (fun b => count_correct (forward p m (fst b)) (snd b)) batches).

(** the pair [test] returns from what its loop accumulated *)
Definition test_value (dl : DataLoader) (acc : Q * Q) : Q * Q :=
  (snd acc / Q_of_nat (length (dataset dl)) * 100,
   fst acc / Q_of_nat (len_dataloader dl)).

(** the calls one run of [test] over [batches] logs at parameters [p] *)
Definition test_events (p : list Q) (batches : list Batch) : list Event :=
  [EvEvalMode; EvNoGradEnter]
    ++ eval_events (map fst batches) (eval_losses p false batches)
    ++ [EvNoGradExit].

(** the world a run of [test] leaves, whether it returns or raises *)
Definition after_test (dl : DataLoader) (w : World) : World :=
  log_all (test_events (params w) (yielded dl w))
    (set_training false
       (if shuffle dl then set_rng (next_seed (rng w)) w else w)).

(** a loader torch accepts ([batch_size] positive) and that has data *)
Definition loader_ok (dl : DataLoader) : Prop :=
  (0 < batch_size dl)%nat /\ dataset dl <> [].

(** the outcome of the first [k] epochs of a loop started in [w] *)
Definition after_epochs (report : nat -> bool) (tdl vdl : DataLoader)
    (k : nat) (w : World) : Outcome Run :=
  epochs_from report tdl vdl k init_run w.

(** What epoch [k] of a loop started in [w] measures: the value [train]
    returns and the pair [test] returns, as (train loss, validation
    accuracy, validation loss). *)
Definition epoch_record (report : nat -> bool) (tdl vdl : DataLoader)
    (k : nat) (w : World) : option (Q * Q * Q) :=
  match after_epochs report tdl vdl k w with
  | Ok _ wk =>
      match train tdl wk with
      | Ok tl w1 =>
          match test vdl w1 with
          | Ok v _ => Some (tl, fst v, snd v)
          | Raised _ _ => None
          end
      | Raised _ _ => None
      end
  | Raised _ _ => None
  end.

Definition rec_train_loss (rec : Q * Q * Q) : Q := fst (fst rec).
Definition rec_val_correct (rec : Q * Q * Q) : Q := snd (fst rec).
Definition rec_val_loss (rec : Q * Q * Q) : Q := snd rec.

(** the progress line of epoch [k], if the loop prints one *)
Definition progress_line (report : nat -> bool) (k : nat) (rec : Q * Q * Q) : list Line :=
  if report k
  then [Progress (k + 1) (rec_train_loss rec) (rec_val_loss rec) (rec_val_correct rec)]
  else [].

(** the progress lines of the epochs [start], [start + 1], ... whose
    measurements are [recs] *)
Fixpoint progress_lines (report : nat -> bool) (start : nat) (recs : list (Q * Q * Q)) : list Line :=
  match recs with
  | [] => []
  | rec :: rest => progress_line report start rec ++ progress_lines report (S start) rest
  end.

(** the maximum of 0 and all entries of [l] *)
Definition Qmax_list (l : list Q) : Q := fold_right Qmax 0 l.

Definition is_best_score (l : Line) : bool :=
  match l with BestScore _ => true | Progress _ _ _ _ => false end.

(** [best_score] after [k] epochs of a loop started in [w] *)
Definition best_after (report : nat -> bool) (tdl vdl : DataLoader)
    (k : nat) (w : World) : option Q :=
  option_map best_score (value_of (after_epochs report tdl vdl k w)).

(** the validation accuracy of epoch [k] of a loop started in [w] *)
Definition val_accuracy_at (report : nat -> bool) (tdl vdl : DataLoader)
    (k : nat) (w : World) : option Q :=
  option_map rec_val_correct (epoch_record report tdl vdl k w).

(** The calls of one epoch that starts in world [wk]: a training pass with
    loss values [vs], after which the world is [w1], then a validation
    pass. *)
Definition epoch_events (tdl vdl : DataLoader) (wk w1 : World) (vs : list Q) : list Event :=
  (EvTrainMode :: pass_events (map fst (yielded tdl wk)) vs)
    ++ test_events (params w1) (yielded vdl w1).

(** [loop], whose first [k] epochs are [after_epochs report tdl vdl k],
    runs [n] epochs from [w] and returns: both histories then hold [n]
    entries; after [k] epochs they are the first [k] of these entries; and
    epoch [k] is one call of [train], over batches that hold every training
    sample once, followed by one call of [test], over batches that hold
    every validation sample once (in dataset order when the validation
    loader does not shuffle), whose results are appended to the
    histories. *)
Definition runs_all_epochs (loop : M Run) (report : nat -> bool)
    (tdl vdl : DataLoader) (n : nat) (w : World) : Prop :=
  exists r wn,
    after_epochs report tdl vdl n w = Ok r wn /\
    loop w = Ok r (emit (BestScore (best_score r)) wn) /\
    length (train_losses r) = n /\ length (val_losses r) = n /\
    (forall k, (k <= n)%nat ->
       exists rk wk,
         after_epochs report tdl vdl k w = Ok rk wk /\
         train_losses rk = firstn k (train_losses r) /\
         val_losses rk = firstn k (val_losses r)) /\
    (forall k, (k < n)%nat ->
       exists rk wk tl w1 v vs rk1 wk1,
         after_epochs report tdl vdl k w = Ok rk wk /\
         train tdl wk = Ok tl w1 /\
         test vdl w1 = Ok v (after_test vdl w1) /\
         after_epochs report tdl vdl (S k) w = Ok rk1 wk1 /\
         train_losses rk1 = train_losses rk ++ [tl] /\
         val_losses rk1 = val_losses rk ++ [snd v] /\
         trace wk1 = trace wk ++ epoch_events tdl vdl wk w1 vs /\
         length vs = length (yielded tdl wk) /\
         Permutation (concat (map fst (yielded tdl wk))) (map fst (dataset tdl)) /\
         Permutation (concat (map fst (yielded vdl w1))) (map fst (dataset vdl)) /\
         (shuffle vdl = false ->
          concat (map fst (yielded vdl w1)) = map fst (dataset vdl))).

(** What [loop] prints when run from [w] for [n] epochs: in epoch order, one
    progress line for each epoch [k] at which [report k] holds, made of
    [k + 1] and of the train loss, the validation loss and the validation
    accuracy that epoch measured, and after them one line with the best
    score. *)
Definition prints_progress (loop : M Run) (report : nat -> bool)
    (tdl vdl : DataLoader) (n : nat) (w : World) : Prop :=
  exists recs r w',
    loop w = Ok r w' /\
    length recs = n /\
    (forall k rec, nth_error recs k = Some rec ->
                   epoch_record report tdl vdl k w = Some rec) /\
    stdout w' = stdout w ++ progress_lines report 0 recs ++ [BestScore (best_score r)] /\
    filter is_best_score (progress_lines report 0 recs) = [] /\
    (forall line,
        In line (progress_lines report 0 recs) <->
        exists k rec,
          nth_error recs k = Some rec /\ report k = true /\
          line = Progress (k + 1) (rec_train_loss rec) (rec_val_loss rec)
                          (rec_val_correct rec)).

(** the epoch numbers of the progress lines of an output, in order *)
Definition printed_epochs (out : list Line) : list nat :=
  flat_map (fun l => match l with Progress k _ _ _ => [k] | BestScore _ => [] end) out.

(** the calls that write gradients or parameters *)
Definition is_update (e : Event) : bool :=
  match e with EvZeroGrad | EvBackward | EvStep => true | _ => false end.

(** a forward pass made while gradient tracking was on *)
Definition is_tracked_forward (e : Event) : bool :=
  match e with EvForward _ true => true | _ => false end.

End Vocabulary.

(** [j] is the first index at which [row] is maximal. *)
Definition first_max_index (row : list Q) (j : nat) : Prop :=
  (j < length row)%nat /\
  (forall k, (k < length row)%nat -> nth k row 0 <= nth j row 0) /\
  (forall k, (k < j)%nat -> nth k row 0 < nth j row 0).

(** ** Binary64 evaluation of the notebook's own arithmetic *)

(** [correct /= size; correct * 100] at the end of [test] *)
Definition float_accuracy (correct size : float) : float :=
  PrimFloat.mul (PrimFloat.div correct size) 100%float.


(** ** Fixtures *)

Module Fixtures.

(** A three-class classifier that scores class 0 highest whatever the
    input, under a loss that is constantly 1; the sampler reverses. *)
Definition always_zero : Collaborators := {|
  Image := nat;
  Seed := nat;
  randperm := fun _ l => rev l;
  next_seed := S;
  forward := fun _ _ X => map (fun _ => [1; 0; 0]) X;
  loss_fn := fun _ _ => 1;
  autograd := fun p _ _ _ => map (fun _ => 1) p;
  lr := 5 # 1000
|}.

(** two batches of four *)
Definition train8 : @DataLoader always_zero :=
  mkDataLoader (C := always_zero)
    [(0, 0); (1, 1); (2, 2); (3, 0); (4, 1); (5, 2); (6, 0); (7, 1)]%nat 4 true.

(** ten samples with the labels 0,0,0,1,1,1,2,2,2,2 *)
Definition val10 : @DataLoader always_zero :=
  mkDataLoader (C := always_zero)
    [(0, 0); (1, 0); (2, 0); (3, 1); (4, 1); (5, 1); (6, 2); (7, 2); (8, 2); (9, 2)]%nat
    4 false.

Definition empty_loader : @DataLoader always_zero :=
  mkDataLoader (C := always_zero) [] 4 false.

Definition world0 : @World always_zero :=
  mkWorld (C := always_zero) [1; 2] [] false true 0%nat [] [].

(** The number of validation samples, out of twenty, that the scripted
    classifier gets right once its parameter has value [t]. *)
Definition hits (p : list Q) : nat :=
  match p with
  | [] => 0
  | t :: _ =>
      if Qle_bool t 1 then 2
      else if Qle_bool t 2 then 8
      else if Qle_bool t 3 then 5
      else if Qle_bool t 4 then 12
      else 11
  end%nat.

(** A two-class classifier whose single parameter grows by one with each
    optimizer step (gradient -200 at learning rate 0.005) and which gets
    the images numbered below [hits] right. *)
Definition scripted : Collaborators := {|
  Image := nat;
  Seed := nat;
  randperm := fun _ l => rev l;
  next_seed := S;
  forward := fun p _ X => map (fun i => if (i <? hits p)%nat then [1; 0] else [0; 1]) X;
  loss_fn := fun s _ => Q_of_nat (length s);
  autograd := fun p _ _ _ => map (fun _ => - (200 # 1)) p;
  lr := 5 # 1000
|}.

(** one batch per epoch *)
Definition train4 : @DataLoader scripted :=
  mkDataLoader (C := scripted) [(0, 0); (1, 1); (2, 0); (3, 1)]%nat 4 true.

(** twenty samples, all of class 0 *)
Definition val20 : @DataLoader scripted :=
  mkDataLoader (C := scripted) (map (fun i => (i, 0%nat)) (seq 0 20)) 8 false.

Definition world1 : @World scripted :=
  mkWorld (C := scripted) [0] [] false true 0%nat [] [].

End Fixtures.

(** ** The network

    The class [NeuralNetwork] of the notebook, its constructor and its
    [forward], over the layers it uses.  [nn.Linear] computes
    [x @ weight.T + bias] and refuses an input whose rows do not have
    [in_features] entries; [nn.ReLU] is [max(0, x)] entry by entry;
    [nn.Flatten] concatenates the channels and rows of each sample. *)

Module Labels.

Import String.

(** [classes] of the notebook *)
Definition classes : list string :=
  ["DE"; "ES"; "FR"; "IE"; "JP"; "NL"; "UK"; "US"]%string.

End Labels.

Module Network.

Definition Vec : Type := list Q.

(** one input image: channels of rows of pixels *)
Definition Picture : Type := list (list (list Q)).

(** [nn.Linear(in_features, out_features)]: [weight] has [out_features]
    rows of [in_features] entries, [bias] has [out_features] entries. *)
Record Linear : Type := mkLinear {
  in_features : nat;
  out_features : nat;
  weight : list Vec;
  bias : Vec
}.

(** the shapes the constructor of [nn.Linear] gives its tensors *)
Definition linear_ok (l : Linear) : Prop :=
  length (weight l) = out_features l /\
  Forall (fun row => length row = in_features l) (weight l) /\
  length (bias l) = out_features l.

Inductive Layer : Type :=
| LLinear (l : Linear)
| LReLU.

(** The sum of the products, exact.  The float32 kernels of torch round
    it, in an order of summation that depends on the shape of the batch:
    what follows uses [dot] for the shape of the scores only, not for their
    last bits. *)
Definition dot (a b : Vec) : Q :=
  Qsum (map (fun ab => fst ab * snd ab) (combine a b)).

(** one row of [x @ weight.T + bias] *)
Definition linear_row (l : Linear) (x : Vec) : Vec :=
  map (fun wb => dot x (fst wb) + snd wb) (combine (weight l) (bias l)).

(** [nn.Linear.forward] on a batch of rows; torch raises a [RuntimeError]
    when the shapes cannot be multiplied. *)
Definition linear_forward (l : Linear) (X : list Vec) : Exn + list Vec :=
  if forallb (fun x => (length x =? in_features l)%nat) X
  then inr (map (linear_row l) X)
  else inl RuntimeError.

Definition relu (v : Q) : Q := if Qle_bool v 0 then 0 else v.

Definition layer_forward (l : Layer) (X : list Vec) : Exn + list Vec :=
  match l with
  | LLinear lin => linear_forward lin X
  | LReLU => inr (map (map relu) X)
  end.

(** [nn.Sequential.forward]: the layers in order *)
Fixpoint sequential_forward (layers : list Layer) (X : list Vec) : Exn + list Vec :=
  match layers with
  | [] => inr X
  | l :: rest =>
      match layer_forward l X with
      | inr Y => sequential_forward rest Y
      | inl e => inl e
      end
  end.

(** [nn.Flatten()] on a batch of pictures *)
Definition flatten (X : list Picture) : list Vec :=
  map (fun picture => concat (concat picture)) X.

(** The attributes [__init__] sets; [self.flatten] has no state. *)
Record NeuralNetwork : Type := mkNeuralNetwork {
  linear_relu_stack : list Layer;
  last_layer : list Layer
}.

Definition forward (self : NeuralNetwork) (x : list Picture) : Exn + list Vec :=
  let x := flatten x in
  match sequential_forward (linear_relu_stack self) x with
  | inr x => sequential_forward (last_layer self) x
  | inl e => inl e
  end.

(** what [model.children()] yields: the modules registered directly on a
    module *)
Inductive Child : Type :=
| CFlatten
| CSequential (layers : list Layer)
| CLayer (l : Layer).

(** [hasattr(layer, 'reset_parameters')]: of the modules above only
    [nn.Linear] defines the method. *)
Definition has_reset_parameters (c : Child) : bool :=
  match c with
  | CLayer (LLinear _) => true
  | _ => false
  end.

Section Initialiser.

(** the generator of torch and the initialisation [nn.Linear] draws from it *)
Variable Generator : Type.
Variable init_linear : nat -> nat -> Generator -> Linear * Generator.

(** [NeuralNetwork()] *)
Definition new_NeuralNetwork (g : Generator) : NeuralNetwork * Generator :=
  let (l1, g1) := init_linear (3 * 64 * 64) 32 g in
  let (l2, g2) := init_linear 32 32 g1 in
  let (l3, g3) := init_linear 32 32 g2 in
  let (l4, g4) := init_linear 32 8 g3 in
  (mkNeuralNetwork [LLinear l1; LReLU; LLinear l2; LReLU; LLinear l3; LReLU]
                   [LLinear l4],
   g4).

Definition children (self : NeuralNetwork) : list Child :=
  [CFlatten; CSequential (linear_relu_stack self); CSequential (last_layer self)].

(** [layer.reset_parameters()] *)
Definition reset_parameters (c : Child) (g : Generator) : Child * Generator :=
  match c with
  | CLayer (LLinear l) =>
      let (l', g') := init_linear (in_features l) (out_features l) g in
      (CLayer (LLinear l'), g')
  | _ => (c, g)
  end.

(** [for layer in children: if hasattr(layer, 'reset_parameters'):
    layer.reset_parameters()] *)
Fixpoint reset_loop (cs : list Child) (g : Generator) : list Child * Generator :=
  match cs with
  | [] => ([], g)
  | layer :: rest =>
      let (layer', g1) :=
        if has_reset_parameters layer then reset_parameters layer g else (layer, g) in
      let (rest', g2) := reset_loop rest g1 in
      (layer' :: rest', g2)
  end.

End Initialiser.

(** a linear layer of the given sizes, with tensors of the right shapes *)
Definition has_dims (i o : nat) (l : Linear) : Prop :=
  in_features l = i /\ out_features l = o /\ linear_ok l.

(** a network with the layers and sizes [__init__] gives it, whatever the
    values of its weights *)
Definition notebook_shaped (self : NeuralNetwork) : Prop :=
  exists l1 l2 l3 l4,
    linear_relu_stack self = [LLinear l1; LReLU; LLinear l2; LReLU; LLinear l3; LReLU] /\
    last_layer self = [LLinear l4] /\
    has_dims (3 * 64 * 64) 32 l1 /\ has_dims 32 32 l2 /\
    has_dims 32 32 l3 /\ has_dims 32 8 l4.

(** a picture of [c] channels, [h] rows and [w] columns *)
Definition picture_shape (c h w : nat) (picture : Picture) : Prop :=
  length picture = c /\
  Forall (fun channel =>
            length channel = h /\ Forall (fun row => length row = w) channel)
         picture.

(** the parameters of all [nn.Linear] layers inside a child, in order *)
Definition layer_parameters (l : Layer) : list Q :=
  match l with
  | LLinear lin => concat (weight lin) ++ bias lin
  | LReLU => []
  end.

Definition child_parameters (c : Child) : list Q :=
  match c with
  | CFlatten => []
  | CSequential layers => flat_map layer_parameters layers
  | CLayer l => layer_parameters l
  end.

End Network.

Module NetworkFixtures.

Import Network.

(** an initialiser that sets every weight to [v]; the generator is not used *)
Definition constant_init (v : Q) (i o : nat) (g : unit) : Linear * unit :=
  (mkLinear i o (repeat (repeat v i) o) (repeat v o), g).

Definition constant_network (v : Q) : NeuralNetwork :=
  fst (new_NeuralNetwork (constant_init v) tt).

(** a picture of [c] channels, [h] rows and [w] columns, all pixels [v] *)
Definition plain_picture (c h w : nat) (v : Q) : Picture :=
  repeat (repeat (repeat v w) h) c.

(** a small network, 2 inputs, 2 hidden units, 2 scores *)
Definition tiny_network : NeuralNetwork :=
  mkNeuralNetwork
    [LLinear (mkLinear 2 2 [[1; -(1)]; [-(1); 1]] [0; 0]); LReLU]
    [LLinear (mkLinear 2 2 [[1; 0]; [0; 1]] [0; 1 # 2])].

End NetworkFixtures.

(** ** Vocabulary of the further properties *)

Section FurtherVocabulary.

Context {C : Collaborators}.

Definition is_step (e : Event) : bool :=
  match e with EvStep => true | _ => false end.

Definition is_forward (e : Event) : bool :=
  match e with EvForward _ _ => true | _ => false end.

(** the number of optimizer steps a trace records *)
Definition count_steps (tr : list Event) : nat := length (filter is_step tr).

(** the number of forward passes a trace records *)
Definition count_forwards (tr : list Event) : nat := length (filter is_forward tr).

(** A model without coupling between the samples of a batch: the scores of
    a batch are the scores of its parts, one row per sample. *)
Definition per_sample_model : Prop :=
  (forall p m X1 X2, forward p m (X1 ++ X2) = forward p m X1 ++ forward p m X2) /\
  (forall p m x, length (forward p m [x]) = 1%nat).

(** whether the model, alone on sample [s], puts the argmax at its label *)
Definition sample_correct (p : list Q) (m : bool) (s : Sample) : bool :=
  match forward p m [fst s] with
  | row :: _ => (argmax row =? snd s)%nat
  | [] => false
  end.

(** the number of samples of a dataset the model gets right *)
Definition dataset_hits (p : list Q) (m : bool) (samples : list Sample) : nat :=
  length (filter (sample_correct p m) samples).

(** Plain stochastic gradient descent over [batches], from the parameters
    [p] and the gradient buffer [g], with the model in training mode: the
    parameters and the buffer it ends with, and the loss of each batch,
    measured before the step on that batch. *)
Fixpoint sgd_pass (p g : list Q) (batches : list Batch) : list Q * list Q * list Q :=
  match batches with
  | [] => (p, g, [])
  | b :: rest =>
      let gb := autograd p true (fst b) (snd b) in
      let '(pf, gf, vs) := sgd_pass (sgd_update lr p gb) gb rest in
      (pf, gf, loss_fn (forward p true (fst b)) (snd b) :: vs)
  end.

(** every gradient autograd returns is zero in every entry *)
Definition gradients_vanish : Prop :=
  forall p m X y, Forall (fun g => g == 0) (autograd p m X y).

(** the world [train] leaves when the loader has no data *)
Definition after_empty_train (dl : DataLoader) (w : World) : World :=
  let w0 := log EvTrainMode (set_training true w) in
  if shuffle dl then set_rng (next_seed (rng w0)) w0 else w0.

End FurtherVocabulary.

Module FurtherFixtures.

(** A two-class classifier at a stationary point: every gradient is zero.
    The scores are the image number and the first parameter. *)
Definition stationary : Collaborators := {|
  Image := nat;
  Seed := nat;
  randperm := fun _ l => rev l;
  next_seed := S;
  forward := fun p _ X => map (fun i => [Q_of_nat i; nth 0 p 0]) X;
  loss_fn := fun s _ => Q_of_nat (length s);
  autograd := fun p _ _ _ => map (fun _ => 0) p;
  lr := 5 # 1000
|}.

(** five samples in batches of two *)
Definition train5 : @DataLoader stationary :=
  mkDataLoader (C := stationary) [(0, 0); (1, 1); (2, 0); (3, 1); (4, 0)]%nat 2 true.

Definition world2 : @World stationary :=
  mkWorld (C := stationary) [3 # 2; 1] [] false true 0%nat [] [].

End FurtherFixtures.

(** * Properties *)

(** ** Runs of the fixtures *)

Example argmax_tie : argmax [1; 3; 3; 2] = 1%nat.
Proof. reflexivity. Qed.

Example argmax_all_equal : argmax [5; 5; 5] = 0%nat.
Proof. reflexivity. Qed.

Example chunks_of_ten :
  chunks 4 (seq 0 10) = [[0; 1; 2; 3]; [4; 5; 6; 7]; [8; 9]]%nat.
Proof. reflexivity. Qed.

Example sgd_update_run :
  map Qred (sgd_update (5 # 1000) [1; 2; 3] [200; - (400 # 1)]) = [0; 4; 3].
Proof. reflexivity. Qed.

Example val10_batches : len_dataloader Fixtures.val10 = 3%nat.
Proof. reflexivity. Qed.

Example train8_run :
  option_map Qred (value_of (train Fixtures.train8 Fixtures.world0)) = Some 1.
Proof. vm_compute. reflexivity. Qed.

Example val10_run :
  option_map (fun v => (Qred (fst v), Qred (snd v)))
             (value_of (test Fixtures.val10 Fixtures.world0)) = Some (30, 1).
Proof. vm_compute. reflexivity. Qed.

Example empty_loader_run :
  value_of (test Fixtures.empty_loader Fixtures.world0) = None /\
  value_of (train Fixtures.empty_loader Fixtures.world0) = None.
Proof. split; reflexivity. Qed.

Example untracked_train_run :
  exists w',
    train Fixtures.train8 (set_grad_enabled false Fixtures.world0)
    = Raised RuntimeError w'.
Proof. eexists. vm_compute. reflexivity. Qed.

Example scripted_accuracies :
  map (fun k => option_map Qred
                  (val_accuracy_at (report_demo 5) Fixtures.train4 Fixtures.val20 k
                                   Fixtures.world1))
      (seq 0 5)
  = [Some 10; Some 40; Some 25; Some 60; Some 55].
Proof. vm_compute. reflexivity. Qed.

Example demo_loop_prints :
  printed_epochs
    (stdout (world_of (epoch_loop_with report_demo Fixtures.train8 Fixtures.val10 12
                                       Fixtures.world0)))
  = [1; 6; 11]%nat.
Proof. vm_compute. reflexivity. Qed.

Example exercise_loop_prints :
  printed_epochs
    (stdout (world_of (epoch_loop_with report_exercise Fixtures.train8 Fixtures.val10 12
                                       Fixtures.world0)))
  = [1; 6; 11; 12]%nat.
Proof. vm_compute. reflexivity. Qed.

Example binary64_accuracies :
  PrimFloat.eqb (float_accuracy 3%float 10%float) 30%float = true /\
  PrimFloat.eqb (float_accuracy 10%float 10%float) 100%float = true /\
  PrimFloat.eqb (float_accuracy 0%float 10%float) 0%float = true.
Proof. repeat split; vm_compute; reflexivity. Qed.

(** ** Lists and numbers *)

Lemma chunks_fuel_concat (A : Type) (k : nat) :
  (0 < k)%nat ->
  forall (fuel : nat) (l : list A),
    (length l <= fuel)%nat -> concat (chunks_fuel fuel k l) = l.
Proof.
  intros Hk fuel. induction fuel as [|fuel IH]; intros l Hl.
  - destruct l; [reflexivity | simpl in Hl; lia].
  - destruct l as [|a l]; [reflexivity|].
    cbn [chunks_fuel concat]. rewrite IH.
    + apply firstn_skipn.
    + rewrite length_skipn. cbn [length] in *. lia.
Qed.

Lemma ceil_div_small (n k : nat) : (0 < n <= k)%nat -> ceil_div n k = 1%nat.
Proof.
  intros H. unfold ceil_div.
  symmetry. apply Nat.div_unique with (r := (n - 1)%nat); lia.
Qed.

Lemma ceil_div_step (n k : nat) :
  (0 < k)%nat -> (k < n)%nat -> ceil_div n k = S (ceil_div (n - k) k).
Proof.
  intros Hk H. unfold ceil_div.
  replace (n + k - 1)%nat with ((n - k + k - 1) + 1 * k)%nat by lia.
  rewrite Nat.div_add by lia. lia.
Qed.

Lemma ceil_div_0 (k : nat) : (0 < k)%nat -> ceil_div 0 k = 0%nat.
Proof.
  intros Hk. unfold ceil_div. apply Nat.div_small. lia.
Qed.

Lemma ceil_div_pos (n k : nat) : (0 < k)%nat -> (0 < n)%nat -> (0 < ceil_div n k)%nat.
Proof.
  intros Hk Hn. unfold ceil_div.
  apply Nat.div_str_pos. lia.
Qed.

Lemma chunks_fuel_length (A : Type) (k : nat) :
  (0 < k)%nat ->
  forall (fuel : nat) (l : list A),
    (length l <= fuel)%nat ->
    length (chunks_fuel fuel k l) = ceil_div (length l) k.
Proof.
  intros Hk fuel. induction fuel as [|fuel IH]; intros l Hl.
  - destruct l; [|simpl in Hl; lia]. simpl. now rewrite ceil_div_0.
  - destruct l as [|a l]; [simpl; now rewrite ceil_div_0|].
    cbn [chunks_fuel]. remember (a :: l) as l' eqn:El.
    assert (Hpos : (0 < length l')%nat) by (subst; simpl; lia).
    cbn [length]. rewrite IH by (rewrite length_skipn; lia).
    rewrite length_skipn.
    destruct (Nat.le_gt_cases (length l') k) as [Hle|Hgt].
    + replace (length l' - k)%nat with 0%nat by lia.
      rewrite ceil_div_0 by assumption.
      rewrite ceil_div_small; [reflexivity | lia].
    + now rewrite (ceil_div_step Hk Hgt).
Qed.

Lemma chunks_concat (A : Type) (k : nat) (l : list A) :
  (0 < k)%nat -> concat (chunks k l) = l.
Proof. intros Hk. apply chunks_fuel_concat; auto. Qed.

Lemma chunks_length (A : Type) (k : nat) (l : list A) :
  (0 < k)%nat -> length (chunks k l) = ceil_div (length l) k.
Proof. intros Hk. apply chunks_fuel_length; auto. Qed.


Lemma Q_of_nat_nonzero (n : nat) : (0 < n)%nat -> ~ Q_of_nat n == 0.
Proof.
  intros Hn. unfold Q_of_nat, Qeq. simpl. lia.
Qed.


(** ** The monad *)

Section WorldUpdates.

Context {C : Collaborators}.

Variables (p g : list Q) (m ge : bool) (s : Seed) (tr : list Event) (out : list Line).

Lemma log_mk (e : Event) :
  log e (mkWorld p g m ge s tr out) = mkWorld p g m ge s (tr ++ [e]) out.
Proof. reflexivity. Qed.

Lemma log_all_mk (l : list Event) :
  log_all l (mkWorld p g m ge s tr out) = mkWorld p g m ge s (tr ++ l) out.
Proof. reflexivity. Qed.

Lemma emit_mk (l : Line) :
  emit l (mkWorld p g m ge s tr out) = mkWorld p g m ge s tr (out ++ [l]).
Proof. reflexivity. Qed.

Lemma set_params_mk (p' : list Q) :
  set_params p' (mkWorld p g m ge s tr out) = mkWorld p' g m ge s tr out.
Proof. reflexivity. Qed.

Lemma set_grads_mk (g' : list Q) :
  set_grads g' (mkWorld p g m ge s tr out) = mkWorld p g' m ge s tr out.
Proof. reflexivity. Qed.

Lemma set_training_mk (m' : bool) :
  set_training m' (mkWorld p g m ge s tr out) = mkWorld p g m' ge s tr out.
Proof. reflexivity. Qed.

Lemma set_grad_enabled_mk (ge' : bool) :
  set_grad_enabled ge' (mkWorld p g m ge s tr out) = mkWorld p g m ge' s tr out.
Proof. reflexivity. Qed.

Lemma set_rng_mk (s' : Seed) :
  set_rng s' (mkWorld p g m ge s tr out) = mkWorld p g m ge s' tr out.
Proof. reflexivity. Qed.

End WorldUpdates.

Create Rewrite HintDb world.

#[global] Hint Rewrite @log_mk @log_all_mk @emit_mk @set_params_mk @set_grads_mk
  @set_training_mk @set_grad_enabled_mk @set_rng_mk : world.

(** Fields of a world built by a chain of updates. *)
Ltac world_fields :=
  cbn [params grads training grad_enabled rng trace stdout
       log log_all emit set_params set_grads set_training set_grad_enabled set_rng].

(** A chain of updates on an explicit world, as one record. *)
Ltac world_norm := autorewrite with world; world_fields.

Lemma bind_ok {C : Collaborators} (A B : Type) (c : M A) (k : A -> M B)
    (w : World) (a : A) (w' : World) :
  c w = Ok a w' -> bind c k w = k a w'.
Proof. intros H. unfold bind. now rewrite H. Qed.

Arguments bind_ok {C A B c} k {w a w'} _.

Lemma with_no_grad_ok {C : Collaborators} (A : Type) (body : M A)
    (w : World) (a : A) (w1 : World) :
  body (log EvNoGradEnter (set_grad_enabled false w)) = Ok a w1 ->
  with_no_grad body w = Ok a (log EvNoGradExit (set_grad_enabled (grad_enabled w) w1)).
Proof. intros H. unfold with_no_grad. now rewrite H. Qed.

(** ** Training *)

Section TrainProperties.

Context {C : Collaborators}.

(** One training step, run from a world where gradient tracking is on: the
    chain of the five calls. *)
Lemma train_step_chain (X : list Image) (y : list nat) (acc : Q) (w : World) :
  grad_enabled w = true ->
  train_step (X, y) acc w =
  Ok (acc + loss_fn (forward (params w) (training w) X) y)
     (log EvStep
        (set_params
           (sgd_update lr (params w) (autograd (params w) (training w) X y))
           (log EvBackward
              (set_grads (autograd (params w) (training w) X y)
                 (log EvZeroGrad
                    (set_grads []
                       (log (EvLoss (loss_fn (forward (params w) (training w) X) y))
                          (log (EvForward X true) w)))))))).
Proof.
  intros Hg. unfold train_step, bind, model_call, loss_call, zero_grad, backward,
    optimizer_step, modify, ret. cbn. rewrite Hg. reflexivity.
Qed.

(** The same step, with the world it leaves as one record. *)
Lemma train_step_run (X : list Image) (y : list nat) (acc : Q) (w : World) :
  grad_enabled w = true ->
  train_step (X, y) acc w =
  Ok (acc + loss_fn (forward (params w) (training w) X) y)
     (mkWorld
        (sgd_update lr (params w) (autograd (params w) (training w) X y))
        (autograd (params w) (training w) X y)
        (training w) true (rng w)
        (trace w ++ step_events X (loss_fn (forward (params w) (training w) X) y))
        (stdout w)).
Proof.
  intros Hg. rewrite train_step_chain by exact Hg. f_equal.
  destruct w as [p g m ge s tr out]. cbn [grad_enabled] in Hg. subst ge.
  world_norm. unfold step_events. rewrite <- !app_assoc. reflexivity.
Qed.



(** The loop over the batches. *)
Lemma train_pass_run (batches : list Batch) :
  forall (acc : Q) (w : World),
    grad_enabled w = true ->
    exists acc' w' vs,
      for_each batches train_step acc w = Ok acc' w' /\
      length vs = length batches /\
      trace w' = trace w ++ pass_events (map fst batches) vs /\
      acc' == acc + Qsum vs /\
      Forall (fun v => exists s y, v = loss_fn s y) vs /\
      training w' = training w /\ grad_enabled w' = true /\
      rng w' = rng w /\ stdout w' = stdout w.
Proof.
  induction batches as [|[X y] batches IH]; intros acc w Hg.
  - exists acc, w, []. cbn. rewrite app_nil_r.
    repeat split; auto. ring.
  - cbn [for_each]. unfold bind at 1. rewrite (train_step_run X y acc w Hg).
    match goal with |- context [for_each batches train_step ?a ?w1] =>
      destruct (IH a w1 eq_refl)
        as (acc' & w' & vs & Hrun & Hlen & Htr & Hacc & Hall & Hm & Hg' & Hr & Hs)
    end.
    cbn in Htr, Hm, Hr, Hs.
    exists acc', w', (loss_fn (forward (params w) (training w) X) y :: vs).
    repeat split; auto.
    + simpl. now rewrite Hlen.
    + rewrite Htr. cbn [map fst pass_events]. now rewrite <- app_assoc.
    + rewrite Hacc. cbn [Qsum fold_right]. fold (Qsum vs). ring.
    + constructor; [eauto | assumption].
Qed.

Lemma iter_dataloader_run (dl : DataLoader) (w : World) :
  iter_dataloader dl w =
  Ok (yielded dl w) (if shuffle dl then set_rng (next_seed (rng w)) w else w).
Proof.
  unfold iter_dataloader, yielded. destruct (shuffle dl); reflexivity.
Qed.

Lemma yielded_length (dl : DataLoader) (w : World) :
  sampler_permutes -> (0 < batch_size dl)%nat ->
  length (yielded dl w) = len_dataloader dl.
Proof.
  intros Hperm Hk. unfold yielded, batches_of, len_dataloader.
  rewrite length_map, chunks_length by assumption.
  destruct (shuffle dl); [|reflexivity].
  f_equal. apply Permutation_length, Hperm.
Qed.

Lemma len_dataloader_pos (dl : DataLoader) :
  (0 < batch_size dl)%nat -> dataset dl <> [] -> (0 < len_dataloader dl)%nat.
Proof.
  intros Hk Hd. apply ceil_div_pos; [assumption|].
  destruct (dataset dl); [congruence | simpl; lia].
Qed.

Lemma py_div_ok (a : Q) (n : nat) (w : World) :
  (0 < n)%nat -> py_div a n w = Ok (a / Q_of_nat n) w.
Proof.
  intros Hn. unfold py_div. destruct (Nat.eqb_spec n 0); [lia | reflexivity].
Qed.

Lemma py_div_zero (a : Q) (w : World) : py_div a 0 w = Raised ZeroDivisionError w.
Proof. reflexivity. Qed.

(** A call of [train] on a loader that has data. *)
Lemma train_run (dl : DataLoader) (w : World) :
  sampler_permutes -> (0 < batch_size dl)%nat -> dataset dl <> [] ->
  grad_enabled w = true ->
  exists avg w' vs,
    train dl w = Ok avg w' /\
    length vs = len_dataloader dl /\
    trace w' = trace w ++ EvTrainMode :: pass_events (map fst (yielded dl w)) vs /\
    avg == mean vs /\
    Forall (fun v => exists s y, v = loss_fn s y) vs /\
    training w' = true /\ grad_enabled w' = true /\ stdout w' = stdout w /\
    rng w' = (if shuffle dl then next_seed (rng w) else rng w).
Proof.
  intros Hperm Hk Hd Hg.
  unfold train, bind at 1. unfold model_train, modify.
  unfold bind at 1. rewrite iter_dataloader_run.
  set (w0 := log EvTrainMode (set_training true w)).
  set (w1 := if shuffle dl then set_rng (next_seed (rng w0)) w0 else w0).
  assert (Hg1 : grad_enabled w1 = true) by (subst w1 w0; destruct (shuffle dl); exact Hg).
  destruct (train_pass_run (yielded dl w0) 0 w1 Hg1)
    as (acc' & w' & vs & Hrun & Hlen & Htr & Hacc & Hall & Hm & Hg' & Hr & Hs).
  unfold bind at 1. rewrite Hrun.
  unfold bind. rewrite py_div_ok by (apply len_dataloader_pos; assumption).
  exists (acc' / Q_of_nat (len_dataloader dl)), w', vs.
  assert (Hy : yielded dl w0 = yielded dl w) by reflexivity.
  rewrite Hy in *.
  assert (Hlen' : length vs = len_dataloader dl)
    by (rewrite Hlen; apply yielded_length; assumption).
  repeat split; auto.
  - rewrite Htr. subst w1 w0. destruct (shuffle dl); cbn; now rewrite <- app_assoc.
  - unfold mean. rewrite Hlen', Hacc. unfold Q_of_nat.
    apply Qmult_comp; [ring | reflexivity].
  - rewrite Hm. subst w1 w0. destruct (shuffle dl); reflexivity.
  - rewrite Hs. subst w1 w0. destruct (shuffle dl); reflexivity.
  - rewrite Hr. subst w1 w0. destruct (shuffle dl); reflexivity.
Qed.

(** A call of [train] on a loader without data. *)
Lemma train_empty (dl : DataLoader) (w : World) :
  sampler_permutes -> dataset dl = [] ->
  exists w', train dl w = Raised ZeroDivisionError w'.
Proof.
  intros Hperm Hd.
  unfold train, bind at 1. unfold model_train, modify.
  unfold bind at 1. rewrite iter_dataloader_run.
  assert (Hy : forall w0, yielded dl w0 = []).
  { intros w0. unfold yielded. rewrite Hd.
    destruct (shuffle dl).
    - rewrite (Permutation_nil (Permutation_sym (Hperm (rng w0) []))). reflexivity.
    - reflexivity. }
  rewrite Hy. cbn [for_each]. unfold bind, ret.
  unfold len_dataloader. rewrite Hd. cbn [length].
  replace (ceil_div 0 (batch_size dl)) with 0%nat.
  - rewrite py_div_zero. eexists. reflexivity.
  - unfold ceil_div. destruct (batch_size dl) as [|[|k]]; try reflexivity.
    symmetry. apply Nat.div_small. lia.
Qed.

End TrainProperties.

(** ** Evaluation *)

Section TestProperties.

Context {C : Collaborators}.

Lemma test_step_run (b : Batch) (acc : Q * Q) (w : World) :
  test_step b acc w =
  Ok (fst acc + loss_fn (forward (params w) (training w) (fst b)) (snd b),
      snd acc + Q_of_nat (count_correct (forward (params w) (training w) (fst b)) (snd b)))
     (log_all [EvForward (fst b) (grad_enabled w);
               EvLoss (loss_fn (forward (params w) (training w) (fst b)) (snd b))] w).
Proof.
  destruct b as [X y], acc as [a c].
  unfold test_step, bind, model_call, loss_call, ret, log_all, log. cbn.
  now rewrite <- app_assoc.
Qed.

(** The loop of [test], run where gradient tracking is off. *)
Lemma eval_pass_run (batches : list Batch) :
  forall (acc : Q * Q) (w : World),
    grad_enabled w = false ->
    for_each batches test_step acc w =
    Ok (eval_pass (params w) (training w) batches acc)
       (log_all (eval_events (map fst batches)
                   (eval_losses (params w) (training w) batches)) w).
Proof.
  induction batches as [|b batches IH]; intros acc w Hg.
  - cbn. unfold ret, log_all. rewrite app_nil_r. now destruct w.
  - cbn [for_each]. unfold bind. rewrite test_step_run, IH by exact Hg.
    cbn. rewrite Hg. unfold log_all. cbn. now rewrite <- app_assoc.
Qed.

Lemma test_unfold (dl : DataLoader) (w : World) :
  test dl w =
  (avg_loss <- py_div (fst (eval_pass (params w) false (yielded dl w) (0, 0)))
                      (len_dataloader dl) ;;
   correct <- py_div (snd (eval_pass (params w) false (yielded dl w) (0, 0)))
                     (length (dataset dl)) ;;
   ret (correct * 100, avg_loss)) (after_test dl w).
Proof.
  unfold test.
  rewrite (@bind_ok _ _ _ model_eval _ w tt (log EvEvalMode (set_training false w)) eq_refl).
  erewrite bind_ok.
  2:{ apply with_no_grad_ok. erewrite bind_ok by apply iter_dataloader_run.
      apply eval_pass_run. destruct (shuffle dl); reflexivity. }
  unfold after_test, test_events, yielded.
  destruct w as [p g m ge s tr out].
  destruct (shuffle dl); world_norm; rewrite <- !app_assoc; reflexivity.
Qed.

(** The world [test] leaves does not depend on whether it returns. *)
Lemma test_world (dl : DataLoader) (w : World) :
  world_of (test dl w) = after_test dl w.
Proof.
  rewrite test_unfold. unfold bind, py_div, ret, raise.
  destruct (len_dataloader dl =? 0)%nat, (length (dataset dl) =? 0)%nat; reflexivity.
Qed.

(** A call of [test] on a loader that has data returns. *)
Lemma test_run (dl : DataLoader) (w : World) :
  (0 < batch_size dl)%nat -> dataset dl <> [] ->
  test dl w =
  Ok (test_value dl (eval_pass (params w) false (yielded dl w) (0, 0)))
     (after_test dl w).
Proof.
  intros Hk Hd. rewrite test_unfold. unfold bind.
  rewrite py_div_ok by (apply len_dataloader_pos; assumption).
  rewrite py_div_ok by (destruct (dataset dl); [congruence | simpl; lia]).
  reflexivity.
Qed.

Lemma len_dataloader_empty (dl : DataLoader) : dataset dl = [] -> len_dataloader dl = 0%nat.
Proof.
  intros Hd. unfold len_dataloader, ceil_div. rewrite Hd. cbn [length].
  destruct (batch_size dl) as [|[|k]]; try reflexivity.
  apply Nat.div_small. lia.
Qed.

(** A call of [test] on a loader without data raises. *)
Lemma test_empty (dl : DataLoader) (w : World) :
  dataset dl = [] -> test dl w = Raised ZeroDivisionError (after_test dl w).
Proof.
  intros Hd. rewrite test_unfold. unfold bind.
  now rewrite (len_dataloader_empty dl Hd), py_div_zero.
Qed.

End TestProperties.

(** ** The epoch loops *)

Section LoopProperties.

Context {C : Collaborators}.

Variable report : nat -> bool.
Variables tdl vdl : DataLoader.

Hypothesis Hperm : sampler_permutes.
Hypothesis Htdl : loader_ok tdl.
Hypothesis Hvdl : loader_ok vdl.

Lemma for_each_app (A S : Type) (body : A -> S -> M S) (xs ys : list A) :
  forall (acc : S) (w : World),
    for_each (xs ++ ys) body acc w =
    (acc' <- for_each xs body acc ;; for_each ys body acc') w.
Proof.
  induction xs as [|x xs IH]; intros acc w.
  - reflexivity.
  - cbn [app for_each]. unfold bind.
    destruct (body x acc w) as [a w'|e w']; [|reflexivity].
    rewrite IH. reflexivity.
Qed.

Lemma after_test_grad_enabled (dl : DataLoader) (w : World) :
  grad_enabled (after_test dl w) = grad_enabled w.
Proof. unfold after_test. destruct (shuffle dl); reflexivity. Qed.

Lemma after_test_stdout (dl : DataLoader) (w : World) :
  stdout (after_test dl w) = stdout w.
Proof. unfold after_test. destruct (shuffle dl); reflexivity. Qed.

Lemma after_test_params (dl : DataLoader) (w : World) :
  params (after_test dl w) = params w.
Proof. unfold after_test. destruct (shuffle dl); reflexivity. Qed.

Lemma after_test_grads (dl : DataLoader) (w : World) :
  grads (after_test dl w) = grads w.
Proof. unfold after_test. destruct (shuffle dl); reflexivity. Qed.

Lemma after_test_trace (dl : DataLoader) (w : World) :
  trace (after_test dl w) = trace w ++ test_events (params w) (yielded dl w).
Proof. unfold after_test. destruct (shuffle dl); reflexivity. Qed.

(** One epoch, from a world where gradient tracking is on. *)
Lemma epoch_body_run (e : nat) (r : Run) (w : World) :
  grad_enabled w = true ->
  exists tl w1 v vs,
    train tdl w = Ok tl w1 /\ grad_enabled w1 = true /\ stdout w1 = stdout w /\
    length vs = len_dataloader tdl /\
    trace w1 = trace w ++ EvTrainMode :: pass_events (map fst (yielded tdl w)) vs /\
    test vdl w1 = Ok v (after_test vdl w1) /\
    epoch_body report tdl vdl e r w =
    Ok (mkRun (py_max (best_score r) (fst v))
              (train_losses r ++ [tl]) (val_losses r ++ [snd v]))
       (if report e
        then emit (Progress (e + 1) tl (snd v) (fst v)) (after_test vdl w1)
        else after_test vdl w1).
Proof.
  intros Hg. destruct Htdl as [Hk Hd], Hvdl as [Hk' Hd'].
  destruct (@train_run C tdl w Hperm Hk Hd Hg)
    as (tl & w1 & vs & Htrain & Hlen & Htr & _ & _ & _ & Hg1 & Hs & _).
  exists tl, w1, (test_value vdl (eval_pass (params w1) false (yielded vdl w1) (0, 0))), vs.
  pose proof (@test_run C vdl w1 Hk' Hd') as Htest.
  repeat split; auto.
  unfold epoch_body.
  rewrite (bind_ok _ Htrain), (bind_ok _ Htest).
  unfold test_value. cbn [fst snd].
  destruct (report e); reflexivity.
Qed.

Lemma after_epochs_S (k : nat) (w : World) :
  after_epochs report tdl vdl (S k) w =
  (r <- after_epochs report tdl vdl k ;; epoch_body report tdl vdl k r) w.
Proof.
  unfold after_epochs, epochs_from. rewrite seq_S, for_each_app. cbn [Nat.add].
  unfold bind. destruct (for_each (seq 0 k) _ init_run w) as [r wk|e wk]; [|reflexivity].
  cbn [for_each]. unfold bind, ret.
  destruct (epoch_body report tdl vdl k r wk); reflexivity.
Qed.

Lemma after_epochs_ok (w : World) :
  grad_enabled w = true ->
  forall k, exists r wk,
    after_epochs report tdl vdl k w = Ok r wk /\ grad_enabled wk = true.
Proof.
  intros Hg k. induction k as [|k (r & wk & Hk & Hgk)].
  - exists init_run, w. split; [reflexivity | assumption].
  - destruct (epoch_body_run k r wk Hgk)
      as (tl & w1 & v & vs & _ & Hg1 & _ & _ & _ & _ & Hbody).
    eexists _, _. rewrite after_epochs_S, (bind_ok _ Hk), Hbody.
    split; [reflexivity|].
    destruct (report k); [unfold emit; cbn [grad_enabled]|];
      now rewrite after_test_grad_enabled.
Qed.

Lemma progress_lines_app (s : nat) (l l' : list (Q * Q * Q)) :
  progress_lines report s (l ++ l') =
  progress_lines report s l ++ progress_lines report (s + length l) l'.
Proof.
  revert s. induction l as [|rec l IH]; intros s.
  - cbn. now rewrite Nat.add_0_r.
  - cbn [app progress_lines length]. rewrite IH, <- app_assoc.
    now rewrite Nat.add_succ_comm.
Qed.

(** The first [n] epochs: what they measure and what they leave. *)
Lemma epochs_run (w : World) :
  grad_enabled w = true ->
  forall n, exists recs r wn,
    length recs = n /\
    after_epochs report tdl vdl n w = Ok r wn /\
    (forall k rec, nth_error recs k = Some rec ->
                   epoch_record report tdl vdl k w = Some rec) /\
    train_losses r = map rec_train_loss recs /\
    val_losses r = map rec_val_loss recs /\
    best_score r = fold_left py_max (map rec_val_correct recs) 0 /\
    grad_enabled wn = true /\
    stdout wn = stdout w ++ progress_lines report 0 recs.
Proof.
  intros Hg n. induction n as [|n (recs & r & wn & Hlen & Hrun & Hrec & Htl & Hvl & Hb & Hgn & Hout)].
  - exists [], init_run, w. cbn. rewrite app_nil_r.
    repeat split; auto. intros [|k] rec; discriminate.
  - destruct (epoch_body_run n r wn Hgn)
      as (tl & w1 & v & vs & Htrain & Hg1 & Hs1 & _ & _ & Htest & Hbody).
    exists (recs ++ [(tl, fst v, snd v)]).
    eexists _, _. rewrite after_epochs_S, (bind_ok _ Hrun), Hbody.
    split; [rewrite length_app; cbn; lia|].
    split; [reflexivity|].
    cbn [train_losses val_losses best_score].
    repeat split.
    + intros k rec Hk.
      destruct (Nat.lt_ge_cases k (length recs)) as [Hlt|Hge].
      * rewrite nth_error_app1 in Hk by assumption. now apply Hrec.
      * rewrite nth_error_app2 in Hk by assumption.
        destruct (k - length recs)%nat as [|j] eqn:Hj; [|destruct j; discriminate].
        injection Hk as <-. assert (k = n) as -> by lia.
        unfold epoch_record. now rewrite Hrun, Htrain, Htest.
    + now rewrite map_app, Htl.
    + now rewrite map_app, Hvl.
    + now rewrite map_app, fold_left_app, <- Hb.
    + destruct (report n); [unfold emit; cbn [grad_enabled]|];
        now rewrite after_test_grad_enabled.
    + rewrite progress_lines_app, Hlen. cbn [progress_lines Nat.add].
      unfold progress_line, rec_train_loss, rec_val_loss, rec_val_correct.
      cbn [fst snd]. rewrite app_nil_r.
      destruct (report n); [unfold emit; cbn [stdout]|];
        rewrite after_test_stdout, Hs1, Hout, <- ?app_assoc, ?app_nil_r; reflexivity.
Qed.

End LoopProperties.

(** ** Results on [train] *)

Lemma sgd_update_nth {lr : Q} (ps gs : list Q) :
  forall i p g,
    nth_error ps i = Some p -> nth_error gs i = Some g ->
    nth_error (sgd_update lr ps gs) i = Some (p + - lr * g).
Proof.
  revert gs. induction ps as [|p0 ps IH]; intros gs i p g Hp Hg.
  - destruct i; discriminate.
  - destruct gs as [|g0 gs]; [destruct i; discriminate|].
    destruct i as [|i]; cbn in *.
    + congruence.
    + now apply IH.
Qed.

(** At exact numbers a gradient that is not zero moves the parameter; the
    rounding of binary32 does not keep this. *)
Lemma sgd_moves (lr p g : Q) : ~ lr == 0 -> ~ g == 0 -> ~ p + - lr * g == p.
Proof.
  intros Hlr Hg H.
  assert (Hz : lr * g == 0).
  { setoid_replace (lr * g) with (p - (p + - lr * g)) by ring.
    rewrite H. ring. }
  destruct (Qmult_integral _ _ Hz); contradiction.
Qed.

Lemma fixture_sampler_permutes : @sampler_permutes Fixtures.always_zero.
Proof. intros s l. apply Permutation_sym, Permutation_rev. Qed.

Lemma scripted_sampler_permutes : @sampler_permutes Fixtures.scripted.
Proof. intros s l. apply Permutation_sym, Permutation_rev. Qed.




Section TrainResults.

Context {C : Collaborators}.



End TrainResults.




(** ** First maximal index *)

Lemma Qgt_bool_true (x y : Q) : Qgt_bool x y = true <-> y < x.
Proof.
  unfold Qgt_bool. rewrite negb_true_iff. split.
  - intros H. apply Qnot_le_lt. intros Hle.
    apply Qle_bool_iff in Hle. congruence.
  - intros H. destruct (Qle_bool x y) eqn:E; [|reflexivity].
    apply Qle_bool_iff in E. exfalso. exact (Qlt_not_le _ _ H E).
Qed.

Lemma Qgt_bool_false (x y : Q) : Qgt_bool x y = false <-> x <= y.
Proof.
  unfold Qgt_bool. rewrite negb_false_iff. apply Qle_bool_iff.
Qed.

Lemma argmax_from_spec (row : list Q) :
  forall (pre : list Q) (bi : nat) (best : Q),
    (bi < length pre)%nat -> nth bi pre 0 = best ->
    (forall k, (k < length pre)%nat -> nth k pre 0 <= best) ->
    (forall k, (k < bi)%nat -> nth k pre 0 < best) ->
    first_max_index (pre ++ row) (argmax_from bi best (length pre) row).
Proof.
  induction row as [|x rest IH]; intros pre bi best Hbi Hnth Hmax Hfirst.
  - cbn [argmax_from]. rewrite app_nil_r. unfold first_max_index.
    rewrite Hnth. auto.
  - cbn [argmax_from].
    replace (pre ++ x :: rest) with ((pre ++ [x]) ++ rest)
      by (rewrite <- app_assoc; reflexivity).
    replace (S (length pre)) with (length (pre ++ [x]))
      by (rewrite length_app; cbn; lia).
    destruct (Qgt_bool x best) eqn:E.
    + apply Qgt_bool_true in E. apply IH.
      * rewrite length_app. cbn. lia.
      * rewrite app_nth2, Nat.sub_diag by lia. reflexivity.
      * intros k Hk. rewrite length_app in Hk. cbn in Hk.
        destruct (Nat.eq_dec k (length pre)) as [->|Hne].
        -- rewrite app_nth2, Nat.sub_diag by lia. apply Qle_refl.
        -- rewrite app_nth1 by lia. apply Qlt_le_weak.
           apply Qle_lt_trans with best; [apply Hmax; lia | exact E].
      * intros k Hk. rewrite app_nth1 by lia.
        apply Qle_lt_trans with best; [apply Hmax; lia | exact E].
    + apply Qgt_bool_false in E. apply IH.
      * rewrite length_app. cbn. lia.
      * rewrite app_nth1 by lia. exact Hnth.
      * intros k Hk. rewrite length_app in Hk. cbn in Hk.
        destruct (Nat.eq_dec k (length pre)) as [->|Hne].
        -- rewrite app_nth2, Nat.sub_diag by lia. exact E.
        -- rewrite app_nth1 by lia. apply Hmax. lia.
      * intros k Hk. rewrite app_nth1 by lia. now apply Hfirst.
Qed.

Lemma argmax_first_max (row : list Q) :
  row <> [] -> first_max_index row (argmax row).
Proof.
  destruct row as [|x rest]; [congruence|]. intros _.
  change (first_max_index ([x] ++ rest) (argmax_from 0 x (length [x]) rest)).
  apply argmax_from_spec.
  - cbn. lia.
  - reflexivity.
  - intros [|k] Hk; [apply Qle_refl | cbn in Hk; lia].
  - intros k Hk. lia.
Qed.

Lemma first_max_index_unique (row : list Q) (i j : nat) :
  first_max_index row i -> first_max_index row j -> i = j.
Proof.
  intros (Hi & Hmi & Hfi) (Hj & Hmj & Hfj).
  destruct (Nat.lt_trichotomy i j) as [Hlt|[Heq|Hgt]]; [|assumption|].
  - exfalso. exact (Qlt_not_le _ _ (Hfj i Hlt) (Hmi j Hj)).
  - exfalso. exact (Qlt_not_le _ _ (Hfi j Hgt) (Hmj i Hi)).
Qed.

Lemma argmax_eqb_iff (row : list Q) (label : nat) :
  row <> [] -> ((argmax row =? label)%nat = true <-> first_max_index row label).
Proof.
  intros Hrow. rewrite Nat.eqb_eq. split.
  - intros <-. now apply argmax_first_max.
  - intros H. exact (first_max_index_unique (argmax_first_max Hrow) H).
Qed.

Lemma count_correct_cons (row : list Q) (scores : list (list Q)) (label : nat) (y : list nat) :
  count_correct (row :: scores) (label :: y) =
  ((if (argmax row =? label)%nat then 1 else 0) + count_correct scores y)%nat.
Proof.
  unfold count_correct. cbn [combine filter fst snd].
  destruct (argmax row =? label)%nat; reflexivity.
Qed.

Lemma count_correct_le (scores : list (list Q)) (y : list nat) :
  (count_correct scores y <= length y)%nat.
Proof.
  unfold count_correct.
  etransitivity; [apply filter_length_le|].
  rewrite length_combine. apply Nat.le_min_r.
Qed.

Lemma count_correct_constant (scores : list (list Q)) :
  forall y : list nat,
    Forall (fun row => argmax row = 0%nat) scores ->
    length scores = length y ->
    count_correct scores y = length (filter (Nat.eqb 0) y).
Proof.
  induction scores as [|row scores IH]; intros [|l y] Hall Hlen;
    try discriminate; [reflexivity|].
  inversion Hall as [|? ? Hrow Hrest]; subst.
  rewrite count_correct_cons, Hrow, IH by (auto; cbn in Hlen; lia).
  cbn [filter]. destruct (0 =? l)%nat; reflexivity.
Qed.

(** ** Counting over the batches of a loader *)

Lemma Q_of_nat_add (a b : nat) : Q_of_nat (a + b) == Q_of_nat a + Q_of_nat b.
Proof.
  unfold Q_of_nat. now rewrite Nat2Z.inj_add, inject_Z_plus.
Qed.

Lemma Q_of_nat_le (a b : nat) : (a <= b)%nat -> Q_of_nat a <= Q_of_nat b.
Proof.
  intros H. unfold Q_of_nat. rewrite <- Zle_Qle. lia.
Qed.

Lemma Q_of_nat_pos (n : nat) : (0 < n)%nat -> 0 < Q_of_nat n.
Proof.
  intros H. unfold Q_of_nat. change 0 with (inject_Z 0). rewrite <- Zlt_Qlt. lia.
Qed.

Lemma accuracy_bounds (c s : nat) :
  (0 < s)%nat -> (c <= s)%nat ->
  0 <= Q_of_nat c / Q_of_nat s * 100 /\ Q_of_nat c / Q_of_nat s * 100 <= 100.
Proof.
  intros Hs Hc.
  pose proof (Q_of_nat_pos Hs) as Hpos.
  pose proof (Q_of_nat_le Hc) as Hle.
  pose proof (Q_of_nat_le (Nat.le_0_l c)) as H0.
  change (Q_of_nat 0) with 0 in H0.
  split.
  - apply Qmult_le_0_compat; [|discriminate].
    apply Qle_shift_div_l; [assumption|]. now rewrite Qmult_0_l.
  - setoid_replace 100 with (1 * 100) at 2 by ring.
    apply Qmult_le_compat_r; [|discriminate].
    apply Qle_shift_div_r; [assumption|]. now rewrite Qmult_1_l.
Qed.

Lemma filter_count_concat (A : Type) (f : A -> bool) (ls : list (list A)) :
  list_sum (map (fun l => length (filter f l)) ls) = length (filter f (concat ls)).
Proof.
  induction ls as [|l ls IH]; [reflexivity|].
  cbn [map concat]. rewrite filter_app, length_app, <- IH. reflexivity.
Qed.

Lemma filter_count_perm (A : Type) (f : A -> bool) (l l' : list A) :
  Permutation l l' -> length (filter f l) = length (filter f l').
Proof.
  induction 1 as [|x l l' _ IH|x y l|l l' l'' _ IH1 _ IH2].
  - reflexivity.
  - cbn. destruct (f x); cbn; now rewrite IH.
  - cbn. destruct (f x), (f y); reflexivity.
  - congruence.
Qed.

Section Counting.

Context {C : Collaborators}.


Lemma eval_pass_snd (p : list Q) (m : bool) (batches : list Batch) :
  forall acc,
    snd (eval_pass p m batches acc) == snd acc + Q_of_nat (total_correct p m batches).
Proof.
  induction batches as [|b batches IH]; intros acc.
  - cbn. unfold Q_of_nat. cbn. ring.
  - cbn [eval_pass]. rewrite IH. cbn [snd].
    unfold total_correct. cbn [map].
    change (list_sum (?a :: ?l)) with (a + list_sum l)%nat.
    rewrite Q_of_nat_add. ring.
Qed.

Lemma concat_batches_images (k : nat) (samples : list Sample) :
  (0 < k)%nat -> concat (map fst (batches_of k samples)) = map fst samples.
Proof.
  intros Hk. unfold batches_of. rewrite map_map. cbn [collate fst].
  rewrite <- concat_map, chunks_concat by assumption. reflexivity.
Qed.

Lemma concat_batches_labels (k : nat) (samples : list Sample) :
  (0 < k)%nat -> concat (map snd (batches_of k samples)) = map snd samples.
Proof.
  intros Hk. unfold batches_of. rewrite map_map. cbn [collate snd].
  rewrite <- concat_map, chunks_concat by assumption. reflexivity.
Qed.

Lemma total_correct_le (p : list Q) (m : bool) (k : nat) (samples : list Sample) :
  (0 < k)%nat -> (total_correct p m (batches_of k samples) <= length samples)%nat.
Proof.
  intros Hk.
  assert (H : (total_correct p m (batches_of k samples)
               <= length (concat (map snd (batches_of k samples))))%nat).
  { rewrite length_concat, map_map. unfold total_correct.
    induction (batches_of k samples) as [|b bs IH]; [reflexivity|].
    cbn [map]. change (list_sum (?a :: ?l)) with (a + list_sum l)%nat.
    pose proof (count_correct_le (forward p m (fst b)) (snd b)).
    change (list_sum (?a :: ?l)) with (a + list_sum l)%nat. lia. }
  rewrite concat_batches_labels, length_map in H by assumption. exact H.
Qed.

Lemma yielded_images (dl : DataLoader) (w : World) :
  sampler_permutes -> (0 < batch_size dl)%nat ->
  Permutation (concat (map fst (yielded dl w))) (map fst (dataset dl)) /\
  (shuffle dl = false -> concat (map fst (yielded dl w)) = map fst (dataset dl)).
Proof.
  intros Hperm Hk. unfold yielded. rewrite concat_batches_images by assumption.
  destruct (shuffle dl).
  - split; [|discriminate]. apply Permutation_map, Hperm.
  - split; [apply Permutation_refl | reflexivity].
Qed.

Lemma total_correct_yielded_le (p : list Q) (m : bool) (dl : DataLoader) (w : World) :
  sampler_permutes -> (0 < batch_size dl)%nat ->
  (total_correct p m (yielded dl w) <= length (dataset dl))%nat.
Proof.
  intros Hperm Hk. unfold yielded.
  etransitivity; [apply total_correct_le; assumption|].
  destruct (shuffle dl); [|reflexivity].
  apply Nat.eq_le_incl, Permutation_length, Hperm.
Qed.

End Counting.

(** ** Results on [test] *)

Section TestResults.

Context {C : Collaborators}.

Lemma eval_events_quiet (Xs : list (list Image)) :
  forall vs,
    filter is_update (eval_events Xs vs) = [] /\
    filter is_tracked_forward (eval_events Xs vs) = [].
Proof.
  induction Xs as [|X Xs IH]; intros [|v vs]; try (split; reflexivity).
  cbn. apply IH.
Qed.

Lemma test_events_quiet (p : list Q) (batches : list Batch) :
  filter is_update (test_events p batches) = [] /\
  filter is_tracked_forward (test_events p batches) = [].
Proof.
  unfold test_events.
  destruct (eval_events_quiet (map fst batches) (eval_losses p false batches)) as [H1 H2].
  rewrite !filter_app, H1, H2. split; reflexivity.
Qed.

(** The value [test] returns is a function of the parameters and of the
    batches the loader yields. *)
Lemma test_value_of (dl : DataLoader) (w1 w2 : World) :
  params w1 = params w2 -> yielded dl w1 = yielded dl w2 ->
  value_of (test dl w1) = value_of (test dl w2).
Proof.
  intros Hp Hy. rewrite !test_unfold, Hp, Hy.
  unfold bind, py_div, ret, raise.
  destruct (len_dataloader dl =? 0)%nat, (length (dataset dl) =? 0)%nat; reflexivity.
Qed.

Lemma yielded_fixed_order (dl : DataLoader) (w1 w2 : World) :
  shuffle dl = false -> yielded dl w1 = yielded dl w2.
Proof. intros Hs. unfold yielded. now rewrite Hs. Qed.

Lemma yielded_same_rng (dl : DataLoader) (w1 w2 : World) :
  rng w1 = rng w2 -> yielded dl w1 = yielded dl w2.
Proof. intros Hr. unfold yielded. now rewrite Hr. Qed.

(** C3: whether it returns or raises, a call of [test] leaves the
    parameters and their gradient buffers as they were and restores the
    gradient-tracking flag; between [model.eval()] and the end of the
    [no_grad] scope it only calls the model, with tracking off, and the loss
    function: no [zero_grad], no [backward], no optimizer step.  On a loader
    that does not shuffle, as the validation loader, a second call right
    after the first returns the same pair, and so does a call from any
    world with the same parameters; on any loader, so does a call from a
    world with the same parameters and the same state of the sampler. *)
Theorem test_leaves_model_unchanged (dl : DataLoader) (w : World) :
  params (world_of (test dl w)) = params w /\
  grads (world_of (test dl w)) = grads w /\
  grad_enabled (world_of (test dl w)) = grad_enabled w /\
  trace (world_of (test dl w)) =
    trace w ++ [EvEvalMode; EvNoGradEnter]
            ++ eval_events (map fst (yielded dl w))
                           (eval_losses (params w) false (yielded dl w))
            ++ [EvNoGradExit] /\
  filter is_update (test_events (params w) (yielded dl w)) = [] /\
  filter is_tracked_forward (test_events (params w) (yielded dl w)) = [] /\
  (shuffle dl = false ->
   value_of (test dl (world_of (test dl w))) = value_of (test dl w) /\
   (forall w2, params w2 = params w -> value_of (test dl w2) = value_of (test dl w))) /\
  (forall w2, params w2 = params w -> rng w2 = rng w ->
              value_of (test dl w2) = value_of (test dl w)).
Proof.
  rewrite test_world.
  rewrite after_test_params, after_test_grads, after_test_grad_enabled, after_test_trace.
  destruct (test_events_quiet (params w) (yielded dl w)) as [H1 H2].
  split; [reflexivity|]. split; [reflexivity|]. split; [reflexivity|].
  split; [reflexivity|]. split; [exact H1|]. split; [exact H2|].
  split.
  - intros Hs. split.
    + apply test_value_of; [apply after_test_params | now apply yielded_fixed_order].
    + intros w2 Hp. apply test_value_of; [exact Hp | now apply yielded_fixed_order].
  - intros w2 Hp Hr. apply test_value_of; [exact Hp | now apply yielded_same_rng].
Qed.

Lemma test_accuracy_value (dl : DataLoader) (w : World) :
  loader_ok dl ->
  exists acc loss,
    test dl w = Ok (acc, loss) (after_test dl w) /\
    acc == Q_of_nat (total_correct (params w) false (yielded dl w))
           / Q_of_nat (length (dataset dl)) * 100.
Proof.
  intros [Hk Hd]. eexists _, _. split; [apply test_run; assumption|].
  cbn [fst snd]. rewrite eval_pass_snd. cbn [snd]. field.
  apply Q_of_nat_nonzero. destruct (dataset dl); [congruence | cbn; lia].
Qed.

(** C6: on a loader with data, [test] returns, and the accuracy it returns
    is [num_correct / num_val_samples * 100] (equal to
    [100 * num_correct / num_val_samples]), with [num_correct] at most the
    number of samples, so it lies between 0 and 100; the accuracy every
    epoch of a loop measures is one of these values. *)
Theorem val_accuracy_in_range (dl : DataLoader) (w : World) :
  sampler_permutes -> loader_ok dl ->
  (exists acc loss w',
      test dl w = Ok (acc, loss) w' /\
      acc == 100 * Q_of_nat (total_correct (params w) false (yielded dl w))
             / Q_of_nat (length (dataset dl)) /\
      (total_correct (params w) false (yielded dl w) <= length (dataset dl))%nat /\
      0 <= acc /\ acc <= 100) /\
  (forall (report : nat -> bool) (tdl : DataLoader) (k : nat) (w0 : World) (a : Q),
      val_accuracy_at report tdl dl k w0 = Some a -> 0 <= a /\ a <= 100).
Proof.
  intros Hperm Hok.
  assert (Hrange : forall w1 acc loss w',
             test dl w1 = Ok (acc, loss) w' -> 0 <= acc /\ acc <= 100).
  { intros w1 acc loss w' Hrun.
    destruct (test_accuracy_value w1 Hok) as (acc' & loss' & Hrun' & Hacc).
    rewrite Hrun in Hrun'. injection Hrun' as -> _ _.
    destruct Hok as [Hk Hd].
    rewrite Hacc. apply accuracy_bounds.
    - destruct (dataset dl); [congruence | cbn; lia].
    - now apply total_correct_yielded_le. }
  split.
  - destruct (test_accuracy_value w Hok) as (acc & loss & Hrun & Hacc).
    exists acc, loss, (after_test dl w).
    split; [exact Hrun|]. split.
    + rewrite Hacc. unfold Qdiv. ring.
    + split; [destruct Hok; now apply total_correct_yielded_le|].
      exact (Hrange _ _ _ _ Hrun).
  - intros report tdl k w0 a. unfold val_accuracy_at, epoch_record.
    destruct (after_epochs report tdl dl k w0) as [r wk|]; [|discriminate].
    destruct (train tdl wk) as [tl w1|]; [|discriminate].
    destruct (test dl w1) as [[vc vl] w2|] eqn:Ht; [|discriminate].
    cbn. intros [= <-]. exact (Hrange _ _ _ _ Ht).
Qed.

(** C7: [test] adds to [correct], for a batch, the number of samples whose
    row of scores has its argmax at the sample's label, and the argmax of a
    row is the first index at which the row is maximal: no later index
    holds a larger score, every earlier index holds a strictly smaller
    one. *)
Theorem correct_counts_first_argmax (row : list Q) (label : nat) :
  row <> [] ->
  ((argmax row =? label)%nat = true <-> first_max_index row label) /\
  (forall (scores : list (list Q)) (y : list nat),
      count_correct (row :: scores) (label :: y) =
      ((if (argmax row =? label)%nat then 1 else 0) + count_correct scores y)%nat) /\
  (forall y : list nat, count_correct [] y = 0%nat) /\
  (forall (b : Batch) (acc : Q * Q) (w : World),
      exists loss w',
        test_step b acc w = Ok (loss, snd acc + Q_of_nat
          (count_correct (forward (params w) (training w) (fst b)) (snd b))) w') /\
  (forall (dl : DataLoader) (w : World),
      loader_ok dl ->
      exists acc loss w',
        test dl w = Ok (acc, loss) w' /\
        acc == Q_of_nat (total_correct (params w) false (yielded dl w))
               / Q_of_nat (length (dataset dl)) * 100).
Proof.
  intros Hrow.
  split; [now apply argmax_eqb_iff|].
  split; [intros; apply count_correct_cons|].
  split; [reflexivity|].
  split.
  - intros b acc w. eexists _, _. apply test_step_run.
  - intros dl w Hok.
    destruct (test_accuracy_value w Hok) as (acc & loss & Hrun & Hacc).
    now exists acc, loss, (after_test dl w).
Qed.

End TestResults.

Section Scenarios.

Context {C : Collaborators}.

Lemma total_correct_constant (p : list Q) (m : bool) (dl : DataLoader) (w : World) :
  sampler_permutes -> (0 < batch_size dl)%nat ->
  (forall X, length (forward p m X) = length X /\
             Forall (fun row => argmax row = 0%nat) (forward p m X)) ->
  total_correct p m (yielded dl w) =
  length (filter (Nat.eqb 0) (map snd (dataset dl))).
Proof.
  intros Hperm Hk Hmodel. unfold yielded.
  set (samples := if shuffle dl then randperm (rng w) (dataset dl) else dataset dl).
  assert (Hsamples : Permutation samples (dataset dl))
    by (subst samples; destruct (shuffle dl); [apply Hperm | apply Permutation_refl]).
  rewrite <- (filter_count_perm (Nat.eqb 0) (Permutation_map snd Hsamples)).
  rewrite <- (concat_batches_labels samples Hk), <- filter_count_concat, map_map.
  unfold total_correct. f_equal. apply map_ext_in.
  intros b Hb. destruct (Hmodel (fst b)) as [Hlen Hrows].
  apply count_correct_constant; [assumption|].
  rewrite Hlen. unfold batches_of in Hb. apply in_map_iff in Hb.
  destruct Hb as (c & <- & _). cbn. now rewrite !length_map.
Qed.

(** C8: on ten validation samples with the labels 0,0,0,1,1,1,2,2,2,2, a
    model whose rows of three scores always have their argmax at class 0
    gets an accuracy of 30 per cent from [test], whatever the batch size,
    the order of the samples and the loss; the binary64 value of
    [3 / 10 * 100] is exactly 30.0. *)
Theorem always_class_zero_scores_30 (dl : DataLoader) (w : World) :
  sampler_permutes -> (0 < batch_size dl)%nat ->
  (forall p m X, length (forward p m X) = length X /\
                 Forall (fun row => argmax row = 0%nat) (forward p m X) /\
                 Forall (fun row => length row = 3%nat) (forward p m X)) ->
  map snd (dataset dl) = [0; 0; 0; 1; 1; 1; 2; 2; 2; 2]%nat ->
  exists acc loss w',
    test dl w = Ok (acc, loss) w' /\
    acc == 30 /\
    PrimFloat.eqb (float_accuracy 3%float 10%float) 30%float = true.
Proof.
  intros Hperm Hk Hmodel Hlabels.
  assert (Hsize : length (dataset dl) = 10%nat).
  { pose proof (f_equal (@length nat) Hlabels) as H.
    rewrite length_map in H. exact H. }
  assert (Hok : loader_ok dl)
    by (split; [assumption | destruct (dataset dl); [discriminate | congruence]]).
  destruct (test_accuracy_value w Hok) as (acc & loss & Hrun & Hacc).
  exists acc, loss, (after_test dl w).
  split; [exact Hrun|]. split; [|reflexivity].
  rewrite Hacc, Hsize.
  rewrite (@total_correct_constant (params w) false dl w Hperm Hk)
    by (intros X; destruct (Hmodel (params w) false X) as (? & ? & _); auto).
  rewrite Hlabels. reflexivity.
Qed.

Lemma train_untracked (dl : DataLoader) (w : World) :
  sampler_permutes -> loader_ok dl -> grad_enabled w = false ->
  exists w', train dl w = Raised RuntimeError w'.
Proof.
  intros Hperm [Hk Hd] Hg.
  unfold train, bind at 1. unfold model_train, modify.
  unfold bind at 1. rewrite iter_dataloader_run.
  set (w0 := log EvTrainMode (set_training true w)).
  set (w1 := if shuffle dl then set_rng (next_seed (rng w0)) w0 else w0).
  assert (Hg1 : grad_enabled w1 = false) by (subst w1 w0; destruct (shuffle dl); exact Hg).
  pose proof (yielded_length dl w0 Hperm Hk) as Hlen.
  pose proof (len_dataloader_pos dl Hk Hd) as Hpos.
  destruct (yielded dl w0) as [|[X y] bs]; [cbn in Hlen; lia|].
  cbn [for_each]. unfold train_step.
  unfold bind, model_call, loss_call, zero_grad, backward, modify.
  cbn [pred_graph loss_grad]. rewrite Hg1. cbn [pred_graph loss_grad].
  eexists. reflexivity.
Qed.

(** C10: when the loader yields no batch, [train] and [test] both raise
    [ZeroDivisionError] at the division of the running loss by the number
    of batches (and the division by the size of an empty dataset raises
    too); when the dataset is not empty the loader yields a batch, both
    divisors are positive, both divisions return, [test] returns, [train]
    returns when gradient tracking is on, and [train] never raises
    [ZeroDivisionError]. *)
Theorem zero_division_only_without_data (dl : DataLoader) (w : World) :
  sampler_permutes -> (0 < batch_size dl)%nat ->
  (yielded dl w = [] ->
     (exists w', train dl w = Raised ZeroDivisionError w') /\
     (exists w', test dl w = Raised ZeroDivisionError w') /\
     (forall c w0, py_div c (len_dataloader dl) w0 = Raised ZeroDivisionError w0) /\
     (forall c w0, py_div c (length (dataset dl)) w0 = Raised ZeroDivisionError w0)) /\
  (dataset dl <> [] ->
     yielded dl w <> [] /\
     (forall c w0, py_div c (len_dataloader dl) w0
                   = Ok (c / Q_of_nat (len_dataloader dl)) w0) /\
     (forall c w0, py_div c (length (dataset dl)) w0
                   = Ok (c / Q_of_nat (length (dataset dl))) w0) /\
     (exists v w', test dl w = Ok v w') /\
     (grad_enabled w = true -> exists avg w', train dl w = Ok avg w') /\
     (forall w', train dl w <> Raised ZeroDivisionError w')).
Proof.
  intros Hperm Hk.
  pose proof (yielded_length dl w Hperm Hk) as Hlen.
  split.
  - intros Hy. rewrite Hy in Hlen. cbn in Hlen.
    assert (Hd : dataset dl = []).
    { destruct (dataset dl) as [|s l] eqn:Hd; [reflexivity|].
      assert (Hne : dataset dl <> []) by (rewrite Hd; discriminate).
      pose proof (len_dataloader_pos dl Hk Hne). lia. }
    split; [now apply train_empty|].
    split; [eexists; now apply test_empty|].
    split; intros c w0.
    + rewrite <- Hlen. reflexivity.
    + rewrite Hd. reflexivity.
  - intros Hd.
    pose proof (len_dataloader_pos dl Hk Hd) as Hpos.
    assert (Hsize : (0 < length (dataset dl))%nat)
      by (destruct (dataset dl); [congruence | cbn; lia]).
    split; [intros Hy; rewrite Hy in Hlen; cbn in Hlen; lia|].
    split; [intros; now apply py_div_ok|].
    split; [intros; now apply py_div_ok|].
    split; [eexists _, _; now apply test_run|].
    split.
    + intros Hg.
      destruct (@train_run C dl w Hperm Hk Hd Hg) as (avg & w' & _ & Hrun & _).
      now exists avg, w'.
    + intros w' Hraise. destruct (grad_enabled w) eqn:Hg.
      * destruct (@train_run C dl w Hperm Hk Hd Hg) as (avg & w1 & _ & Hrun & _).
        congruence.
      * destruct (@train_untracked dl w Hperm (conj Hk Hd) Hg) as (w1 & Hrun).
        congruence.
Qed.

End Scenarios.

(** ** Results on the epoch loops *)

Lemma py_max_Qmax (a b : Q) : py_max a b == Qmax a b.
Proof.
  unfold py_max. destruct (Qgt_bool b a) eqn:E.
  - apply Qgt_bool_true in E. symmetry. apply Q.max_r. now apply Qlt_le_weak.
  - apply Qgt_bool_false in E. symmetry. now apply Q.max_l.
Qed.

Lemma py_max_ge_l (a b : Q) : a <= py_max a b.
Proof. rewrite py_max_Qmax. apply Q.le_max_l. Qed.

Lemma py_max_ge_r (a b : Q) : b <= py_max a b.
Proof. rewrite py_max_Qmax. apply Q.le_max_r. Qed.

Lemma Qmax_list_nonneg (l : list Q) : 0 <= Qmax_list l.
Proof.
  destruct l as [|a l]; [apply Qle_refl|]. cbn [Qmax_list fold_right].
  apply Qle_trans with (fold_right Qmax 0 l); [|apply Q.le_max_r].
  induction l as [|x l IH]; [apply Qle_refl|].
  cbn [fold_right]. apply Qle_trans with (fold_right Qmax 0 l);
    [exact IH | apply Q.le_max_r].
Qed.

Lemma fold_py_max (l : list Q) :
  forall b, 0 <= b -> fold_left py_max l b == Qmax b (Qmax_list l).
Proof.
  induction l as [|a l IH]; intros b Hb.
  - cbn. symmetry. now apply Q.max_l.
  - cbn [fold_left Qmax_list fold_right]. fold (Qmax_list l).
    rewrite IH by (apply Qle_trans with b; [exact Hb | apply py_max_ge_l]).
    rewrite py_max_Qmax. symmetry. apply Q.max_assoc.
Qed.

Lemma fold_py_max_0 (l : list Q) : fold_left py_max l 0 == Qmax_list l.
Proof.
  rewrite fold_py_max by apply Qle_refl.
  apply Q.max_r, Qmax_list_nonneg.
Qed.

Lemma Qmax_list_compat (l l' : list Q) :
  Forall2 Qeq l l' -> Qmax_list l == Qmax_list l'.
Proof.
  induction 1 as [|a a' l l' Ha _ IH]; [reflexivity|].
  cbn [Qmax_list fold_right]. fold (Qmax_list l) (Qmax_list l').
  now rewrite Ha, IH.
Qed.

Section LoopResults.

Context {C : Collaborators}.

Variable report : nat -> bool.
Variables tdl vdl : DataLoader.

Hypothesis Hperm : sampler_permutes.
Hypothesis Htdl : loader_ok tdl.
Hypothesis Hvdl : loader_ok vdl.

(** Epoch [k] of a loop started in [w]. *)
Lemma epoch_step (w : World) (k : nat) :
  grad_enabled w = true ->
  exists rk wk tl w1 v vs wk1,
    after_epochs report tdl vdl k w = Ok rk wk /\
    train tdl wk = Ok tl w1 /\
    test vdl w1 = Ok v (after_test vdl w1) /\
    after_epochs report tdl vdl (S k) w =
      Ok (mkRun (py_max (best_score rk) (fst v))
                (train_losses rk ++ [tl]) (val_losses rk ++ [snd v])) wk1 /\
    trace wk1 = trace wk ++ epoch_events tdl vdl wk w1 vs /\
    length vs = length (yielded tdl wk) /\
    epoch_record report tdl vdl k w = Some (tl, fst v, snd v).
Proof.
  intros Hg.
  destruct (after_epochs_ok report Hperm Htdl Hvdl w Hg k) as (rk & wk & Hk & Hgk).
  destruct (epoch_body_run report Hperm Htdl Hvdl k rk wk Hgk)
    as (tl & w1 & v & vs & Htrain & Hg1 & Hs1 & Hlen & Htr & Htest & Hbody).
  exists rk, wk, tl, w1, v, vs.
  eexists. rewrite after_epochs_S, (bind_ok _ Hk), Hbody.
  split; [exact Hk|]. split; [exact Htrain|]. split; [exact Htest|].
  split; [reflexivity|].
  split; [|split].
  - unfold epoch_events.
    destruct (report k); [unfold emit; cbn [trace]|];
      rewrite after_test_trace, Htr, <- app_assoc; reflexivity.
  - destruct Htdl as [Hbs _].
    etransitivity; [exact Hlen | symmetry; now apply yielded_length].
  - unfold epoch_record. now rewrite Hk, Htrain, Htest.
Qed.

(** The measurements of the first [k] epochs are the first [k] of the
    measurements of the first [n]. *)
Lemma records_prefix (w : World) (k n : nat) (recs_k recs_n : list (Q * Q * Q)) :
  (k <= n)%nat -> length recs_k = k -> length recs_n = n ->
  (forall i rec, nth_error recs_k i = Some rec ->
                 epoch_record report tdl vdl i w = Some rec) ->
  (forall i rec, nth_error recs_n i = Some rec ->
                 epoch_record report tdl vdl i w = Some rec) ->
  recs_k = firstn k recs_n.
Proof.
  intros Hkn Hlk Hln Hk Hn. apply nth_error_ext. intros i.
  rewrite nth_error_firstn. destruct (Nat.ltb_spec i k) as [Hlt|Hge].
  - destruct (nth_error recs_k i) as [rec|] eqn:E1;
      [|apply nth_error_None in E1; lia].
    destruct (nth_error recs_n i) as [rec'|] eqn:E2;
      [|apply nth_error_None in E2; lia].
    apply Hk in E1. apply Hn in E2. congruence.
  - apply nth_error_None. lia.
Qed.

Lemma loop_runs_all_epochs (w : World) (n : nat) :
  grad_enabled w = true ->
  runs_all_epochs
    (r <- epochs_from report tdl vdl n init_run ;;
     print (BestScore (best_score r)) ;;; ret r)
    report tdl vdl n w.
Proof.
  intros Hg.
  destruct (epochs_run report Hperm Htdl Hvdl w Hg n)
    as (recs & r & wn & Hlen & Hrun & Hrec & Htl & Hvl & _).
  exists r, wn.
  split; [exact Hrun|].
  split; [unfold after_epochs in Hrun; now rewrite (bind_ok _ Hrun)|].
  split; [now rewrite Htl, length_map|].
  split; [now rewrite Hvl, length_map|].
  split.
  - intros k Hk.
    destruct (epochs_run report Hperm Htdl Hvdl w Hg k)
      as (recs_k & rk & wk & Hlen_k & Hrun_k & Hrec_k & Htl_k & Hvl_k & _).
    exists rk, wk. split; [exact Hrun_k|].
    rewrite Htl_k, Hvl_k, Htl, Hvl, !firstn_map,
      (@records_prefix w k n recs_k recs Hk Hlen_k Hlen Hrec_k Hrec).
    split; reflexivity.
  - intros k Hk.
    destruct (epoch_step w k Hg)
      as (rk & wk & tl & w1 & v & vs & wk1 & Hrk & Htrain & Htest & Hnext & Htr & Hvs & _).
    exists rk, wk, tl, w1, v, vs. eexists _, wk1.
    split; [exact Hrk|]. split; [exact Htrain|]. split; [exact Htest|].
    split; [exact Hnext|].
    split; [reflexivity|]. split; [reflexivity|].
    split; [exact Htr|]. split; [exact Hvs|].
    destruct Htdl as [Hbt _], Hvdl as [Hbv _].
    destruct (yielded_images tdl wk Hperm Hbt) as [Hpt _].
    destruct (yielded_images vdl w1 Hperm Hbv) as [Hpv Hev].
    split; [exact Hpt|]. split; [exact Hpv | exact Hev].
Qed.

Lemma progress_lines_no_best (s : nat) (recs : list (Q * Q * Q)) :
  filter is_best_score (progress_lines report s recs) = [].
Proof.
  revert s. induction recs as [|rec recs IH]; intros s; [reflexivity|].
  cbn [progress_lines]. rewrite filter_app, IH, app_nil_r.
  unfold progress_line. destruct (report s); reflexivity.
Qed.

Lemma In_progress_lines (line : Line) (recs : list (Q * Q * Q)) :
  forall s,
    In line (progress_lines report s recs) <->
    exists k rec,
      nth_error recs k = Some rec /\ report (s + k) = true /\
      line = Progress (s + k + 1) (rec_train_loss rec) (rec_val_loss rec)
                      (rec_val_correct rec).
Proof.
  induction recs as [|rec0 recs IH]; intros s.
  - cbn. split; [tauto|]. intros (k & rec & Hk & _). destruct k; discriminate.
  - cbn [progress_lines]. rewrite in_app_iff, IH. split.
    + intros [Hin|(k & rec & Hk & Hr & ->)].
      * exists 0%nat, rec0. rewrite Nat.add_0_r. unfold progress_line in Hin.
        destruct (report s); [|contradiction].
        destruct Hin as [<-|[]]. repeat split.
      * exists (S k), rec.
        replace (s + S k)%nat with (S s + k)%nat by lia.
        repeat split; assumption.
    + intros ([|k] & rec & Hk & Hr & ->).
      * left. cbn in Hk. injection Hk as ->. rewrite Nat.add_0_r in *.
        unfold progress_line. rewrite Hr. now left.
      * right. exists k, rec.
        replace (s + S k)%nat with (S s + k)%nat in * by lia.
        repeat split; assumption.
Qed.

Lemma loop_prints_progress (w : World) (n : nat) :
  grad_enabled w = true ->
  prints_progress
    (r <- epochs_from report tdl vdl n init_run ;;
     print (BestScore (best_score r)) ;;; ret r)
    report tdl vdl n w.
Proof.
  intros Hg.
  destruct (epochs_run report Hperm Htdl Hvdl w Hg n)
    as (recs & r & wn & Hlen & Hrun & Hrec & _ & _ & _ & _ & Hout).
  exists recs, r, (emit (BestScore (best_score r)) wn).
  split; [unfold after_epochs in Hrun; now rewrite (bind_ok _ Hrun)|].
  split; [exact Hlen|]. split; [exact Hrec|].
  split; [unfold emit; cbn [stdout]; now rewrite Hout, <- app_assoc|].
  split; [apply progress_lines_no_best|].
  intros line. apply (In_progress_lines line recs 0).
Qed.

(** [best_score] over the epochs of a loop started in [w]. *)
Lemma best_score_step (w : World) (k : nat) :
  grad_enabled w = true ->
  exists b a b',
    best_after report tdl vdl k w = Some b /\
    val_accuracy_at report tdl vdl k w = Some a /\
    best_after report tdl vdl (S k) w = Some b' /\
    b' = py_max b a /\ b <= b' /\ a <= b'.
Proof.
  intros Hg.
  destruct (epoch_step w k Hg)
    as (rk & wk & tl & w1 & v & vs & wk1 & Hrk & _ & _ & Hnext & _ & _ & Hrec).
  exists (best_score rk), (fst v), (py_max (best_score rk) (fst v)).
  unfold best_after, val_accuracy_at. rewrite Hrk, Hnext, Hrec.
  split; [reflexivity|]. split; [reflexivity|]. split; [reflexivity|].
  split; [reflexivity|]. split; [apply py_max_ge_l | apply py_max_ge_r].
Qed.

Lemma best_score_final (w : World) (n : nat) :
  grad_enabled w = true ->
  exists accs r w',
    (r <- epochs_from report tdl vdl n init_run ;;
     print (BestScore (best_score r)) ;;; ret r) w = Ok r w' /\
    length accs = n /\
    (forall k a, nth_error accs k = Some a ->
                 val_accuracy_at report tdl vdl k w = Some a) /\
    best_after report tdl vdl n w = Some (best_score r) /\
    best_score r = fold_left py_max accs 0 /\
    best_score r == Qmax_list accs.
Proof.
  intros Hg.
  destruct (epochs_run report Hperm Htdl Hvdl w Hg n)
    as (recs & r & wn & Hlen & Hrun & Hrec & _ & _ & Hbest & _).
  exists (map rec_val_correct recs), r, (emit (BestScore (best_score r)) wn).
  split; [unfold after_epochs in Hrun; now rewrite (bind_ok _ Hrun)|].
  split; [now rewrite length_map|].
  split.
  - intros k a Hk. rewrite nth_error_map in Hk.
    destruct (nth_error recs k) as [rec|] eqn:E; [|discriminate].
    injection Hk as <-. unfold val_accuracy_at. now rewrite (Hrec k rec E).
  - split; [unfold best_after; now rewrite Hrun|].
    split; [exact Hbest|]. rewrite Hbest. apply fold_py_max_0.
Qed.

End LoopResults.

Section LoopClaims.

Context {C : Collaborators}.

(** C1: over the epochs of a loop, [best_score] starts at 0, becomes
    [max(best_score, val_correct)] after each epoch and so never decreases;
    when the loop ends it is the maximum of 0 and of the validation
    accuracies of all its epochs; with five epochs whose accuracies are 10,
    40, 25, 60 and 55 it ends at 60. *)
Theorem best_score_monotone (report : nat -> nat -> bool)
    (tdl vdl : DataLoader) (n : nat) (w : World) :
  sampler_permutes -> loader_ok tdl -> loader_ok vdl -> grad_enabled w = true ->
  best_after (report n) tdl vdl 0 w = Some 0 /\
  (forall k, exists b a b',
      best_after (report n) tdl vdl k w = Some b /\
      val_accuracy_at (report n) tdl vdl k w = Some a /\
      best_after (report n) tdl vdl (S k) w = Some b' /\
      b' = py_max b a /\ b <= b' /\ a <= b') /\
  (exists accs r w',
      epoch_loop_with report tdl vdl n w = Ok r w' /\
      length accs = n /\
      (forall k a, nth_error accs k = Some a ->
                   val_accuracy_at (report n) tdl vdl k w = Some a) /\
      best_after (report n) tdl vdl n w = Some (best_score r) /\
      best_score r = fold_left py_max accs 0 /\
      best_score r == Qmax_list accs /\
      (Forall2 Qeq accs [10; 40; 25; 60; 55] -> best_score r == 60)).
Proof.
  intros Hperm Htdl Hvdl Hg.
  split; [reflexivity|].
  split; [intros k; now apply best_score_step|].
  destruct (best_score_final (report n) Hperm Htdl Hvdl w n Hg)
    as (accs & r & w' & Hrun & Hlen & Hacc & Hlast & Hfold & Hmax).
  exists accs, r, w'.
  split; [exact Hrun|]. split; [exact Hlen|]. split; [exact Hacc|].
  split; [exact Hlast|]. split; [exact Hfold|]. split; [exact Hmax|].
  intros Hex. rewrite Hmax, (Qmax_list_compat Hex). reflexivity.
Qed.

(** C5: each copy of the loop runs its 100 epochs and returns; epoch [k] is
    one call of [train], whose batches hold every training sample once,
    followed by one call of [test], whose batches hold every validation
    sample once; it appends one entry to [train_losses] and one to
    [val_losses]; the entries present after [k] epochs are the first [k]
    entries of the final histories, which hold 100 entries each. *)
Theorem epoch_loop_runs_each_epoch_once (tdl vdl : DataLoader) (w : World) :
  sampler_permutes -> loader_ok tdl -> loader_ok vdl -> grad_enabled w = true ->
  epochs = 100%nat /\
  runs_all_epochs (epoch_loop tdl vdl) (report_demo epochs) tdl vdl epochs w /\
  runs_all_epochs (epoch_loop_exercise tdl vdl) (report_exercise epochs) tdl vdl epochs w.
Proof.
  intros Hperm Htdl Hvdl Hg.
  split; [reflexivity|].
  split; now apply loop_runs_all_epochs.
Qed.

Lemma report_demo_iff (n k : nat) : report_demo n k = true <-> (k mod 5 = 0)%nat.
Proof. unfold report_demo. apply Nat.eqb_eq. Qed.

Lemma report_exercise_iff (n k : nat) :
  report_exercise n k = true <-> (k mod 5 = 0 \/ k + 1 = n)%nat.
Proof.
  unfold report_exercise. now rewrite orb_true_iff, !Nat.eqb_eq.
Qed.

(** C9: the first copy of the loop prints a progress line exactly for the
    epochs [k] with [k % 5 == 0], the exercise copy for these and for the
    last epoch; a progress line holds the number [k + 1] of the epoch and
    the train loss, the validation loss and the validation accuracy of that
    epoch; the best score is printed once, after all progress lines. *)
Theorem progress_every_fifth_epoch (tdl vdl : DataLoader) (w : World) :
  sampler_permutes -> loader_ok tdl -> loader_ok vdl -> grad_enabled w = true ->
  prints_progress (epoch_loop tdl vdl) (report_demo epochs) tdl vdl epochs w /\
  (forall k, report_demo epochs k = true <-> (k mod 5 = 0)%nat) /\
  prints_progress (epoch_loop_exercise tdl vdl) (report_exercise epochs) tdl vdl epochs w /\
  (forall k, report_exercise epochs k = true <-> (k mod 5 = 0 \/ k + 1 = epochs)%nat).
Proof.
  intros Hperm Htdl Hvdl Hg.
  split; [now apply loop_prints_progress|].
  split; [intros k; apply report_demo_iff|].
  split; [now apply loop_prints_progress|].
  intros k; apply report_exercise_iff.
Qed.

End LoopClaims.

(** ** The results at the fixtures *)

Lemma train8_ok : @loader_ok Fixtures.always_zero Fixtures.train8.
Proof. split; [cbv; lia | discriminate]. Qed.

Lemma val10_ok : @loader_ok Fixtures.always_zero Fixtures.val10.
Proof. split; [cbv; lia | discriminate]. Qed.

Lemma train4_ok : @loader_ok Fixtures.scripted Fixtures.train4.
Proof. split; [cbv; lia | discriminate]. Qed.

Lemma val20_ok : @loader_ok Fixtures.scripted Fixtures.val20.
Proof. split; [cbv; lia | discriminate]. Qed.

Lemma best_score_monotone_witness :
  exists r w',
    epoch_loop_with (C := Fixtures.scripted) report_demo
      Fixtures.train4 Fixtures.val20 5 Fixtures.world1 = Ok r w' /\
    best_score r == 60.
Proof.
  destruct (@best_score_monotone Fixtures.scripted report_demo
              Fixtures.train4 Fixtures.val20 5 Fixtures.world1
              scripted_sampler_permutes train4_ok val20_ok eq_refl)
    as (_ & _ & accs & r & w' & Hrun & Hlen & Hacc & _ & _ & _ & Hex).
  exists r, w'. split; [exact Hrun|]. apply Hex.
  destruct accs as [|a0 [|a1 [|a2 [|a3 [|a4 [|a5 accs]]]]]];
    try (exfalso; clear - Hlen; discriminate Hlen).
  pose proof (Hacc 0%nat a0 eq_refl) as H0.
  pose proof (Hacc 1%nat a1 eq_refl) as H1.
  pose proof (Hacc 2%nat a2 eq_refl) as H2.
  pose proof (Hacc 3%nat a3 eq_refl) as H3.
  pose proof (Hacc 4%nat a4 eq_refl) as H4.
  vm_compute in H0, H1, H2, H3, H4.
  injection H0 as <-. injection H1 as <-. injection H2 as <-.
  injection H3 as <-. injection H4 as <-.
  repeat constructor.
Defined.

Lemma epoch_loop_runs_each_epoch_once_witness :
  exists r w',
    epoch_loop (C := Fixtures.always_zero) Fixtures.train8 Fixtures.val10 Fixtures.world0
    = Ok r w' /\
    length (train_losses r) = 100%nat /\ length (val_losses r) = 100%nat.
Proof.
  destruct (@epoch_loop_runs_each_epoch_once Fixtures.always_zero
              Fixtures.train8 Fixtures.val10 Fixtures.world0
              fixture_sampler_permutes train8_ok val10_ok eq_refl)
    as (_ & (r & wn & _ & Hrun & Htl & Hvl & _) & _).
  exists r, (emit (BestScore (best_score r)) wn).
  split; [exact Hrun|]. split; [exact Htl | exact Hvl].
Defined.

Lemma progress_every_fifth_epoch_witness :
  exists recs r w',
    epoch_loop (C := Fixtures.always_zero) Fixtures.train8 Fixtures.val10 Fixtures.world0
    = Ok r w' /\
    length recs = 100%nat /\
    stdout w' = progress_lines (report_demo epochs) 0 recs ++ [BestScore (best_score r)].
Proof.
  destruct (@progress_every_fifth_epoch Fixtures.always_zero
              Fixtures.train8 Fixtures.val10 Fixtures.world0
              fixture_sampler_permutes train8_ok val10_ok eq_refl)
    as ((recs & r & w' & Hrun & Hlen & _ & Hout & _) & _).
  exists recs, r, w'. split; [exact Hrun|]. split; [exact Hlen | exact Hout].
Defined.

Lemma test_leaves_model_unchanged_witness :
  params (world_of (test (C := Fixtures.always_zero) Fixtures.val10 Fixtures.world0))
  = [1; 2] /\
  value_of (test Fixtures.val10 (world_of (test Fixtures.val10 Fixtures.world0)))
  = value_of (test (C := Fixtures.always_zero) Fixtures.val10 Fixtures.world0).
Proof.
  destruct (@test_leaves_model_unchanged Fixtures.always_zero
              Fixtures.val10 Fixtures.world0)
    as (Hp & _ & _ & _ & _ & _ & Hfixed & _).
  destruct (Hfixed eq_refl) as [Htwice _].
  split; [exact Hp | exact Htwice].
Defined.

Lemma val_accuracy_in_range_witness :
  exists acc loss w',
    test (C := Fixtures.always_zero) Fixtures.val10 Fixtures.world0 = Ok (acc, loss) w' /\
    0 <= acc /\ acc <= 100.
Proof.
  destruct (@val_accuracy_in_range Fixtures.always_zero
              Fixtures.val10 Fixtures.world0 fixture_sampler_permutes val10_ok)
    as ((acc & loss & w' & Hrun & _ & _ & Hlo & Hhi) & _).
  exists acc, loss, w'. split; [exact Hrun|]. split; [exact Hlo | exact Hhi].
Defined.

Lemma correct_counts_first_argmax_witness :
  (argmax [1; 3; 3]%Q =? 1)%nat = true /\ first_max_index [1; 3; 3]%Q 1.
Proof.
  assert (Hne : [1; 3; 3]%Q <> []) by discriminate.
  destruct (@correct_counts_first_argmax Fixtures.always_zero [1; 3; 3]%Q 1%nat Hne)
    as (Hiff & _).
  split; [reflexivity | apply Hiff; reflexivity].
Defined.

Lemma always_class_zero_scores_30_witness :
  exists acc loss w',
    test (C := Fixtures.always_zero) Fixtures.val10 Fixtures.world0 = Ok (acc, loss) w' /\
    acc == 30.
Proof.
  assert (Hmodel : forall (p : list Q) (m : bool) (X : list (@Image Fixtures.always_zero)),
             length (@forward Fixtures.always_zero p m X) = length X /\
             Forall (fun row => argmax row = 0%nat) (@forward Fixtures.always_zero p m X) /\
             Forall (fun row => length row = 3%nat) (@forward Fixtures.always_zero p m X)).
  { intros p m X. cbn. split; [apply length_map|].
    split; apply Forall_forall; intros row Hrow;
      apply in_map_iff in Hrow; destruct Hrow as (x & <- & _); reflexivity. }
  assert (Hk : (0 < batch_size Fixtures.val10)%nat) by (cbv; lia).
  destruct (@always_class_zero_scores_30 Fixtures.always_zero
              Fixtures.val10 Fixtures.world0 fixture_sampler_permutes Hk Hmodel eq_refl)
    as (acc & loss & w' & Hrun & Hacc & _).
  exists acc, loss, w'. split; [exact Hrun | exact Hacc].
Defined.

Lemma zero_division_only_without_data_witness :
  (exists w', train (C := Fixtures.always_zero) Fixtures.empty_loader Fixtures.world0
              = Raised ZeroDivisionError w') /\
  (exists w', test (C := Fixtures.always_zero) Fixtures.empty_loader Fixtures.world0
              = Raised ZeroDivisionError w') /\
  (exists avg w', train (C := Fixtures.always_zero) Fixtures.train8 Fixtures.world0
                  = Ok avg w').
Proof.
  assert (Hk : (0 < batch_size Fixtures.empty_loader)%nat) by (cbv; lia).
  assert (Hk' : (0 < batch_size Fixtures.train8)%nat) by (cbv; lia).
  destruct (@zero_division_only_without_data Fixtures.always_zero
              Fixtures.empty_loader Fixtures.world0 fixture_sampler_permutes Hk)
    as (Hempty & _).
  destruct (Hempty eq_refl) as (Htrain & Htest & _).
  destruct (@zero_division_only_without_data Fixtures.always_zero
              Fixtures.train8 Fixtures.world0 fixture_sampler_permutes Hk')
    as (_ & Hdata).
  assert (Hne : dataset Fixtures.train8 <> []) by discriminate.
  destruct (Hdata Hne) as (_ & _ & _ & _ & Hrun & _).
  split; [exact Htrain|]. split; [exact Htest | exact (Hrun eq_refl)].
Defined.

(** * Further properties *)

(** ** The network *)

Module NetworkFacts.

Import Network.

Lemma linear_row_length (l : Linear) (x : Vec) :
  linear_ok l -> length (linear_row l x) = out_features l.
Proof.
  intros (Hw & _ & Hb). unfold linear_row.
  rewrite length_map, length_combine, Hw, Hb. apply Nat.min_id.
Qed.

Lemma forallb_length_iff (n : nat) (X : list Vec) :
  forallb (fun x => (length x =? n)%nat) X = true <->
  Forall (fun x => length x = n) X.
Proof.
  rewrite forallb_forall, Forall_forall.
  split; intros H x Hx; apply Nat.eqb_eq; now apply H.
Qed.

Lemma linear_forward_ok (l : Linear) (X : list Vec) :
  linear_ok l -> Forall (fun x => length x = in_features l) X ->
  exists Y,
    linear_forward l X = inr Y /\ length Y = length X /\
    Forall (fun y => length y = out_features l) Y.
Proof.
  intros Hok HX. exists (map (linear_row l) X). unfold linear_forward.
  rewrite (proj2 (forallb_length_iff (in_features l) X) HX).
  split; [reflexivity|]. split; [apply length_map|].
  apply Forall_forall. intros y Hy. apply in_map_iff in Hy.
  destruct Hy as (x & <- & _). now apply linear_row_length.
Qed.

Lemma linear_forward_mismatch (l : Linear) (X : list Vec) :
  Exists (fun x => length x <> in_features l) X ->
  linear_forward l X = inl RuntimeError.
Proof.
  intros HX. unfold linear_forward.
  destruct (forallb (fun x => (length x =? in_features l)%nat) X) eqn:E;
    [|reflexivity].
  apply forallb_length_iff in E. apply Exists_exists in HX.
  destruct HX as (x & Hin & Hne). rewrite Forall_forall in E.
  now specialize (E x Hin).
Qed.

Lemma relu_forward_shape (n : nat) (X : list Vec) :
  Forall (fun x => length x = n) X ->
  length (map (map relu) X) = length X /\
  Forall (fun x => length x = n) (map (map relu) X).
Proof.
  intros HX. split; [apply length_map|].
  apply Forall_forall. intros y Hy. apply in_map_iff in Hy.
  destruct Hy as (x & <- & Hx). rewrite length_map.
  rewrite Forall_forall in HX. now apply HX.
Qed.

Lemma concat_length_uniform (A : Type) (n : nat) (l : list (list A)) :
  Forall (fun x => length x = n) l -> length (concat l) = (length l * n)%nat.
Proof.
  induction 1 as [|x l Hx _ IH]; [reflexivity|].
  cbn [concat length]. rewrite length_app, Hx, IH. reflexivity.
Qed.

Lemma picture_flat_length (c h w : nat) (picture : Picture) :
  picture_shape c h w picture ->
  length (concat (concat picture)) = (c * h * w)%nat.
Proof.
  intros [Hc Hch].
  rewrite (@concat_length_uniform _ w).
  - rewrite (@concat_length_uniform _ h), Hc; [reflexivity|].
    eapply Forall_impl; [|exact Hch]. now intros ch [Hh _].
  - apply Forall_concat. eapply Forall_impl; [|exact Hch]. now intros ch [_ Hw].
Qed.

Lemma flatten_shape (c h w : nat) (X : list Picture) :
  Forall (picture_shape c h w) X ->
  length (flatten X) = length X /\
  Forall (fun x => length x = (c * h * w)%nat) (flatten X).
Proof.
  intros HX. unfold flatten. split; [apply length_map|].
  apply Forall_forall. intros y Hy. apply in_map_iff in Hy.
  destruct Hy as (p & <- & Hp). rewrite Forall_forall in HX.
  apply picture_flat_length. now apply HX.
Qed.

Lemma new_NeuralNetwork_shaped (Generator : Type)
    (init_linear : nat -> nat -> Generator -> Linear * Generator) (g : Generator) :
  (forall i o g0, has_dims i o (fst (init_linear i o g0))) ->
  notebook_shaped (fst (new_NeuralNetwork init_linear g)).
Proof.
  intros Hinit. unfold new_NeuralNetwork.
  pose proof (Hinit (3 * 64 * 64)%nat 32%nat g) as H1.
  destruct (init_linear (3 * 64 * 64)%nat 32%nat g) as [l1 g1].
  pose proof (Hinit 32%nat 32%nat g1) as H2.
  destruct (init_linear 32%nat 32%nat g1) as [l2 g2].
  pose proof (Hinit 32%nat 32%nat g2) as H3.
  destruct (init_linear 32%nat 32%nat g2) as [l3 g3].
  pose proof (Hinit 32%nat 8%nat g3) as H4.
  destruct (init_linear 32%nat 8%nat g3) as [l4 g4].
  exists l1, l2, l3, l4. cbn [fst linear_relu_stack last_layer].
  repeat split; solve [reflexivity | apply H1 | apply H2 | apply H3 | apply H4].
Qed.

Lemma forward_shaped_run (self : NeuralNetwork) (x : list Picture) :
  notebook_shaped self -> Forall (picture_shape 3 64 64) x ->
  exists scores,
    forward self x = inr scores /\
    length scores = length x /\
    Forall (fun row => length row = 8%nat) scores.
Proof.
  intros (l1 & l2 & l3 & l4 & Hstack & Hlast
          & (Hi1 & Ho1 & Hk1) & (Hi2 & Ho2 & Hk2)
          & (Hi3 & Ho3 & Hk3) & (Hi4 & Ho4 & Hk4)) Hx.
  destruct (flatten_shape Hx) as [Hn0 Hr0].
  unfold forward. cbv zeta. rewrite Hstack, Hlast.
  cbn [sequential_forward layer_forward].
  rewrite <- Hi1 in Hr0.
  destruct (linear_forward_ok Hk1 Hr0) as (Y1 & E1 & Hn1 & Hr1).
  rewrite E1. rewrite Ho1 in Hr1.
  destruct (relu_forward_shape Hr1) as [Hn1' Hr1'].
  rewrite <- Hi2 in Hr1'.
  destruct (linear_forward_ok Hk2 Hr1') as (Y2 & E2 & Hn2 & Hr2).
  rewrite E2. rewrite Ho2 in Hr2.
  destruct (relu_forward_shape Hr2) as [Hn2' Hr2'].
  rewrite <- Hi3 in Hr2'.
  destruct (linear_forward_ok Hk3 Hr2') as (Y3 & E3 & Hn3 & Hr3).
  rewrite E3. rewrite Ho3 in Hr3.
  destruct (relu_forward_shape Hr3) as [Hn3' Hr3'].
  rewrite <- Hi4 in Hr3'.
  destruct (linear_forward_ok Hk4 Hr3') as (Y4 & E4 & Hn4 & Hr4).
  rewrite E4. rewrite Ho4 in Hr4.
  exists Y4. split; [reflexivity|]. split; [|exact Hr4].
  unfold Vec in *. rewrite Hn4, Hn3', Hn3, Hn2', Hn2, Hn1', Hn1. exact Hn0.
Qed.

(** A network with the layers of the notebook, fresh or trained, maps a
    batch of pictures of 3 channels and 64 by 64 pixels to one row of 8
    scores per picture, and the batch may be empty. *)
Theorem forward_scores_shape (self : NeuralNetwork) (x : list Picture) :
  notebook_shaped self -> Forall (picture_shape 3 64 64) x ->
  exists scores,
    forward self x = inr scores /\
    length scores = length x /\
    Forall (fun row => length row = 8%nat) scores /\
    (x = [] -> scores = []).
Proof.
  intros Hself Hx.
  destruct (forward_shaped_run Hself Hx) as (scores & Hrun & Hlen & Hrows).
  exists scores. repeat split; try assumption.
  intros ->. destruct scores; [reflexivity | discriminate Hlen].
Qed.

(** A non-empty batch of pictures of any other size is refused: the first
    linear layer raises [RuntimeError]. *)
Theorem forward_rejects_other_sizes (self : NeuralNetwork) (x : list Picture)
    (c h w : nat) :
  notebook_shaped self -> x <> [] -> Forall (picture_shape c h w) x ->
  (c * h * w <> 3 * 64 * 64)%nat ->
  forward self x = inl RuntimeError.
Proof.
  intros (l1 & l2 & l3 & l4 & Hstack & _ & (Hi1 & _) & _) Hne Hx Hsize.
  destruct (flatten_shape Hx) as [_ Hr0].
  unfold forward. cbv zeta. rewrite Hstack. cbn [sequential_forward layer_forward].
  rewrite linear_forward_mismatch; [reflexivity|].
  destruct x as [|p x]; [congruence|].
  apply Exists_cons_hd. inversion Hr0 as [|? ? Hp _]; subst.
  cbn beta. rewrite Hi1. congruence.
Qed.

(** The index of the highest score of every row the network returns is an
    index into [classes]: the last layer has as many outputs as there are
    classes. *)
Theorem predicted_class_exists (self : NeuralNetwork) (x : list Picture)
    (scores : list Vec) :
  notebook_shaped self -> forward self x = inr scores ->
  Forall (fun row => exists name, nth_error Labels.classes (argmax row) = Some name)
         scores.
Proof.
  intros (l1 & l2 & l3 & l4 & _ & Hlast & _ & _ & _ & (_ & Ho4 & Hk4)) Hrun.
  unfold forward in Hrun. cbv zeta in Hrun. rewrite Hlast in Hrun.
  destruct (sequential_forward (linear_relu_stack self) (flatten x)) as [e|Y];
    [discriminate|].
  cbn [sequential_forward layer_forward] in Hrun. unfold linear_forward in Hrun.
  destruct (forallb (fun x0 => (length x0 =? in_features l4)%nat) Y); [|discriminate].
  injection Hrun as <-.
  apply Forall_forall. intros row Hrow. apply in_map_iff in Hrow.
  destruct Hrow as (y & <- & _).
  pose proof (linear_row_length y Hk4) as Hlen. rewrite Ho4 in Hlen.
  assert (Hne : linear_row l4 y <> []) by (intros E; rewrite E in Hlen; discriminate).
  destruct (argmax_first_max Hne) as [Hlt _]. rewrite Hlen in Hlt.
  destruct (nth_error Labels.classes (argmax (linear_row l4 y))) as [name|] eqn:E;
    [now exists name|].
  apply nth_error_None in E. cbn in E. lia.
Qed.

(** The loop that is to reset the parameters resets none: the modules
    registered on a [NeuralNetwork] are a [Flatten] and two [Sequential]
    containers, which have no [reset_parameters]; the loop returns them as
    they are and draws nothing from the generator, although a network with
    the layers of the notebook holds 395,624 parameters.  A linear layer
    registered directly would be drawn anew. *)
Theorem reset_loop_resets_nothing (Generator : Type)
    (init_linear : nat -> nat -> Generator -> Linear * Generator)
    (self : NeuralNetwork) (g : Generator) :
  reset_loop init_linear (children self) g = (children self, g) /\
  (notebook_shaped self ->
   Z.of_nat (length (flat_map child_parameters (children self))) = 395624%Z) /\
  (forall l g0,
      reset_loop init_linear [CLayer (LLinear l)] g0 =
      ([CLayer (LLinear (fst (init_linear (in_features l) (out_features l) g0)))],
       snd (init_linear (in_features l) (out_features l) g0))).
Proof.
  split; [reflexivity|]. split.
  - intros (l1 & l2 & l3 & l4 & Hstack & Hlast
            & (Hi1 & Ho1 & Hw1 & Hr1 & Hb1) & (Hi2 & Ho2 & Hw2 & Hr2 & Hb2)
            & (Hi3 & Ho3 & Hw3 & Hr3 & Hb3) & (Hi4 & Ho4 & Hw4 & Hr4 & Hb4)).
    unfold children. cbn [flat_map child_parameters app].
    rewrite Hstack, Hlast. cbn [flat_map layer_parameters app].
    unfold Vec in *. rewrite !app_nil_r, !length_app.
    rewrite (concat_length_uniform Hr1), (concat_length_uniform Hr2),
      (concat_length_uniform Hr3), (concat_length_uniform Hr4).
    rewrite Hw1, Hw2, Hw3, Hw4, Hb1, Hb2, Hb3, Hb4, Hi1, Hi2, Hi3, Hi4,
      Ho1, Ho2, Ho3, Ho4.
    rewrite !Nat2Z.inj_add, !Nat2Z.inj_mul. reflexivity.
  - intros l g0. cbn [reset_loop has_reset_parameters reset_parameters].
    destruct (init_linear (in_features l) (out_features l) g0). reflexivity.
Qed.

End NetworkFacts.

Example tiny_network_run :
  match Network.forward NetworkFixtures.tiny_network [[[[1; 0]]]; [[[0; 3]]]] with
  | inr scores => map (map Qred) scores = [[1; 1 # 2]; [0; 7 # 2]]
  | inl _ => False
  end.
Proof. vm_compute. reflexivity. Qed.

Example tiny_network_mismatch :
  Network.forward NetworkFixtures.tiny_network [[[[1; 0; 0]]]] = inl RuntimeError.
Proof. reflexivity. Qed.

Lemma constant_init_dims (v : Q) (i o : nat) (g : unit) :
  Network.has_dims i o (fst (NetworkFixtures.constant_init v i o g)).
Proof.
  unfold NetworkFixtures.constant_init, Network.has_dims, Network.linear_ok.
  cbn [fst Network.in_features Network.out_features Network.weight Network.bias].
  rewrite !repeat_length. repeat split.
  apply Forall_forall. intros row Hrow. apply repeat_spec in Hrow. subst row.
  apply repeat_length.
Qed.

Lemma constant_network_shaped (v : Q) :
  Network.notebook_shaped (NetworkFixtures.constant_network v).
Proof.
  apply NetworkFacts.new_NeuralNetwork_shaped. intros i o g. apply constant_init_dims.
Qed.

Lemma plain_picture_shape (c h w : nat) (v : Q) :
  Network.picture_shape c h w (NetworkFixtures.plain_picture c h w v).
Proof.
  unfold Network.picture_shape, NetworkFixtures.plain_picture.
  rewrite repeat_length. split; [reflexivity|].
  apply Forall_forall. intros ch Hch. apply repeat_spec in Hch. subst ch.
  rewrite repeat_length. split; [reflexivity|].
  apply Forall_forall. intros row Hrow. apply repeat_spec in Hrow. subst row.
  apply repeat_length.
Qed.

Lemma forward_scores_shape_witness :
  exists scores,
    Network.forward (NetworkFixtures.constant_network 1)
                    [NetworkFixtures.plain_picture 3 64 64 (1 # 2)] = inr scores /\
    length scores = 1%nat /\ Forall (fun row => length row = 8%nat) scores /\
    ([NetworkFixtures.plain_picture 3 64 64 (1 # 2)] = [] -> scores = []).
Proof.
  refine (@NetworkFacts.forward_scores_shape
            (NetworkFixtures.constant_network 1)
            [NetworkFixtures.plain_picture 3 64 64 (1 # 2)]
            (constant_network_shaped 1) _).
  constructor; [apply plain_picture_shape | constructor].
Defined.

Lemma predicted_class_exists_witness :
  exists scores,
    Network.forward (NetworkFixtures.constant_network 1)
                    [NetworkFixtures.plain_picture 3 64 64 (1 # 2)] = inr scores /\
    length scores = 1%nat /\
    Forall (fun row => exists name,
              nth_error Labels.classes (argmax row) = Some name) scores.
Proof.
  destruct (@NetworkFacts.forward_shaped_run
              (NetworkFixtures.constant_network 1)
              [NetworkFixtures.plain_picture 3 64 64 (1 # 2)]
              (constant_network_shaped 1))
    as (scores & Hrun & Hlen & _).
  - constructor; [apply plain_picture_shape | constructor].
  - exists scores. split; [exact Hrun|]. split; [exact Hlen|].
    exact (@NetworkFacts.predicted_class_exists _ _ _ (constant_network_shaped 1) Hrun).
Defined.

Lemma forward_rejects_other_sizes_witness :
  Network.forward (NetworkFixtures.constant_network 1)
                  [NetworkFixtures.plain_picture 3 32 32 (1 # 2)] = inl RuntimeError.
Proof.
  apply (@NetworkFacts.forward_rejects_other_sizes
           (NetworkFixtures.constant_network 1)
           [NetworkFixtures.plain_picture 3 32 32 (1 # 2)] 3 32 32
           (constant_network_shaped 1)).
  - discriminate.
  - constructor; [apply plain_picture_shape | constructor].
  - cbv. lia.
Defined.

(** ** The passes over the data *)

Section PassFacts.

Context {C : Collaborators}.


Lemma eval_events_forward_inputs (Xs : list (list Image)) :
  forall vs, length vs = length Xs -> forward_inputs (eval_events Xs vs) = Xs.
Proof.
  induction Xs as [|X Xs IH]; intros [|v vs] H; simpl in H; try discriminate.
  - reflexivity.
  - cbn. f_equal. apply IH. lia.
Qed.

Lemma eval_losses_length (p : list Q) (m : bool) (batches : list Batch) :
  length (eval_losses p m batches) = length (map fst batches).
Proof. unfold eval_losses. now rewrite !length_map. Qed.


Lemma test_events_forward_inputs (p : list Q) (batches : list Batch) :
  forward_inputs (test_events p batches) = map fst batches.
Proof.
  unfold test_events, forward_inputs. rewrite !flat_map_app. cbn [flat_map app].
  rewrite app_nil_r. apply eval_events_forward_inputs, eval_losses_length.
Qed.


Lemma per_sample_count (p : list Q) (m : bool) :
  per_sample_model ->
  forall c : list Sample,
    count_correct (forward p m (map fst c)) (map snd c) = dataset_hits p m c.
Proof.
  intros [Happ Hone] c. induction c as [|s c IH].
  - unfold count_correct. cbn [map]. rewrite combine_nil. reflexivity.
  - cbn [map]. change (fst s :: map fst c) with ([fst s] ++ map fst c).
    rewrite Happ. unfold dataset_hits in *. cbn [filter].
    unfold sample_correct at 1.
    pose proof (Hone p m (fst s)) as H1.
    destruct (forward p m [fst s]) as [|row [|row' rows]]; try discriminate H1.
    cbn [app]. rewrite count_correct_cons, IH.
    destruct (argmax row =? snd s)%nat; reflexivity.
Qed.

Lemma per_sample_total (p : list Q) (m : bool) (k : nat) (samples : list Sample) :
  per_sample_model -> (0 < k)%nat ->
  total_correct p m (batches_of k samples) = dataset_hits p m samples.
Proof.
  intros Hm Hk. unfold total_correct, batches_of. rewrite map_map.
  erewrite map_ext; [|intros c; unfold collate; cbn [fst snd]; apply (per_sample_count p m Hm)].
  unfold dataset_hits. rewrite filter_count_concat, chunks_concat by exact Hk.
  reflexivity.
Qed.

(** For a model that scores every sample on its own, the accuracy [test]
    returns is the share of the samples of the dataset that the model, at
    the parameters [test] is called with, classifies as labelled: neither
    the batch size nor the order the sampler draws changes it. *)
Theorem accuracy_ignores_batching (dl : DataLoader) (w : World) :
  per_sample_model -> sampler_permutes -> loader_ok dl ->
  exists acc loss w',
    test dl w = Ok (acc, loss) w' /\
    acc == Q_of_nat (dataset_hits (params w) false (dataset dl))
           / Q_of_nat (length (dataset dl)) * 100.
Proof.
  intros Hm Hperm Hok.
  destruct (test_accuracy_value w Hok) as (acc & loss & Hrun & Hacc).
  exists acc, loss, (after_test dl w). split; [exact Hrun|].
  rewrite Hacc. destruct Hok as [Hk _].
  unfold yielded. rewrite (per_sample_total _ _ _ Hm Hk).
  destruct (shuffle dl); [|reflexivity].
  unfold dataset_hits.
  rewrite (filter_count_perm _ (Hperm (rng w) (dataset dl))). reflexivity.
Qed.

Lemma chunks_fuel_sizes (A : Type) (k : nat) :
  (0 < k)%nat ->
  forall (fuel : nat) (l : list A),
    Forall (fun c => (0 < length c <= k)%nat) (chunks_fuel fuel k l).
Proof.
  intros Hk fuel. induction fuel as [|fuel IH]; intros l.
  - destruct l; constructor.
  - destruct l as [|a l]; [constructor|].
    cbn [chunks_fuel]. constructor; [|apply IH].
    rewrite length_firstn. cbn [length]. lia.
Qed.

Lemma chunks_fuel_full (A : Type) (k : nat) :
  forall (fuel : nat) (l : list A) (i : nat) (c : list A),
    nth_error (chunks_fuel fuel k l) i = Some c ->
    (S i < length (chunks_fuel fuel k l))%nat ->
    length c = k.
Proof.
  intros fuel. induction fuel as [|fuel IH]; intros l i c Hc Hi.
  - destruct l; cbn in Hi; lia.
  - destruct l as [|a l]; [cbn in Hi; lia|].
    cbn [chunks_fuel] in Hc, Hi. cbn [length] in Hi.
    destruct i as [|i].
    + cbn in Hc. injection Hc as <-. rewrite length_firstn.
      destruct (Nat.le_gt_cases (length (a :: l)) k) as [Hle|Hgt]; [|lia].
      rewrite skipn_all2 in Hi by exact Hle.
      destruct fuel; cbn in Hi; lia.
    + cbn [nth_error] in Hc. apply (IH _ _ _ Hc). lia.
Qed.

Lemma forward_inputs_app (tr1 tr2 : list Event) :
  forward_inputs (tr1 ++ tr2) = forward_inputs tr1 ++ forward_inputs tr2.
Proof. unfold forward_inputs. apply flat_map_app. Qed.

(** A step run while gradient tracking is off: [backward] raises after the
    forward pass, the loss and [zero_grad]. *)
Lemma train_step_untracked (X : list Image) (y : list nat) (acc : Q) (w : World) :
  grad_enabled w = false ->
  exists w',
    train_step (X, y) acc w = Raised RuntimeError w' /\
    trace w' = trace w ++ [EvForward X false;
                           EvLoss (loss_fn (forward (params w) (training w) X) y);
                           EvZeroGrad].
Proof.
  intros Hg. unfold train_step, bind, model_call, loss_call, zero_grad, backward, modify.
  cbn [pred_graph loss_grad]. rewrite Hg. cbn [pred_graph loss_grad].
  eexists. split; [reflexivity|].
  destruct w as [p g m ge s tr out]. world_norm. cbn [scores].
  rewrite <- !app_assoc. reflexivity.
Qed.

(** The inputs of the forward passes of the loop of [train], whether it
    runs to its end or raises, are inputs of the batches it is given. *)
Lemma train_pass_inputs (P : list Image -> Prop) (batches : list Batch) :
  Forall P (map fst batches) ->
  forall (acc : Q) (w : World),
    exists tr,
      trace (world_of (for_each batches train_step acc w)) = trace w ++ tr /\
      Forall P (forward_inputs tr).
Proof.
  induction batches as [|[X y] batches IH]; intros HP acc w.
  - exists []. cbn. rewrite app_nil_r. split; [reflexivity | constructor].
  - cbn [map fst] in HP. inversion HP as [|? ? HX Hrest]; subst.
    cbn [for_each]. unfold bind at 1.
    destruct (grad_enabled w) eqn:Hg.
    + rewrite (train_step_run X y acc w Hg).
      match goal with |- context [for_each batches train_step ?a ?w1] =>
        destruct (IH Hrest a w1) as (tr & Htr & Hall)
      end.
      cbn [trace] in Htr.
      exists (step_events X (loss_fn (forward (params w) (training w) X) y) ++ tr).
      split; [rewrite Htr, <- app_assoc; reflexivity|].
      rewrite forward_inputs_app. cbn. constructor; assumption.
    + destruct (train_step_untracked X y acc w Hg) as (w' & Hrun & Htr).
      rewrite Hrun. cbn [world_of].
      eexists. split; [exact Htr|].
      cbn. constructor; [exact HX | constructor].
Qed.

Lemma train_world (dl : DataLoader) (w : World) :
  exists w1,
    trace w1 = trace w ++ [EvTrainMode] /\
    world_of (train dl w) = world_of (for_each (yielded dl w) train_step 0 w1).
Proof.
  unfold train, bind at 1. unfold model_train, modify.
  unfold bind at 1. rewrite iter_dataloader_run.
  set (w0 := log EvTrainMode (set_training true w)).
  exists (if shuffle dl then set_rng (next_seed (rng w0)) w0 else w0).
  split; [subst w0; destruct (shuffle dl); reflexivity|].
  change (yielded dl w0) with (yielded dl w).
  unfold bind at 1.
  destruct (for_each (yielded dl w) train_step 0 _) as [acc w'|e w']; [|reflexivity].
  unfold bind, py_div, raise, ret.
  destruct (len_dataloader dl =? 0)%nat; reflexivity.
Qed.

(** Every batch a loader yields holds at least one sample and at most
    [batch_size], as many labels as images, and every batch but the last
    holds exactly [batch_size].  So [train] and [test] never call the model
    on an empty batch: whether they return or raise, and whatever the mode
    of gradient tracking, every input of a forward pass they make holds
    between one and [batch_size] images. *)
Theorem batches_within_batch_size (dl : DataLoader) (w : World) :
  (0 < batch_size dl)%nat ->
  Forall (fun b : Batch => (0 < length (fst b) <= batch_size dl)%nat /\
                           length (snd b) = length (fst b))
         (yielded dl w) /\
  (forall i b, nth_error (yielded dl w) i = Some b ->
               (S i < length (yielded dl w))%nat ->
               length (fst b) = batch_size dl) /\
  (exists tr,
      trace (world_of (train dl w)) = trace w ++ tr /\
      Forall (fun X => (0 < length X <= batch_size dl)%nat) (forward_inputs tr)) /\
  (exists tr,
      trace (world_of (test dl w)) = trace w ++ tr /\
      forward_inputs tr = map fst (yielded dl w) /\
      Forall (fun X => (0 < length X <= batch_size dl)%nat) (forward_inputs tr)).
Proof.
  intros Hk.
  assert (Hsizes : forall w0,
             Forall (fun b : Batch => (0 < length (fst b) <= batch_size dl)%nat /\
                                      length (snd b) = length (fst b))
                    (yielded dl w0)).
  { intros w0. unfold yielded, batches_of. apply Forall_map. unfold chunks.
    eapply Forall_impl; [|apply (chunks_fuel_sizes Hk)].
    intros c Hc. unfold collate. cbn [fst snd]. now rewrite !length_map. }
  assert (Hinputs : forall w0,
             Forall (fun X => (0 < length X <= batch_size dl)%nat)
                    (map fst (yielded dl w0))).
  { intros w0. apply Forall_map. eapply Forall_impl; [|apply (Hsizes w0)].
    intros b [Hb _]. exact Hb. }
  split; [apply Hsizes|]. split; [|split].
  - unfold yielded, batches_of.
    set (samples := if shuffle dl then randperm (rng w) (dataset dl) else dataset dl).
    intros i b Hb Hi. rewrite length_map in Hi. rewrite nth_error_map in Hb.
    match type of Hb with
    | option_map _ ?o = _ => destruct o as [c|] eqn:Ec; [|discriminate Hb]
    end.
    injection Hb as <-. unfold collate. cbn [fst]. rewrite length_map.
    unfold chunks in Ec, Hi. eapply chunks_fuel_full; eassumption.
  - destruct (train_world dl w) as (w1 & Htr1 & Hworld).
    destruct (train_pass_inputs _ (Hinputs w) 0 w1) as (tr & Htr & Hall).
    exists (EvTrainMode :: tr). split; [|exact Hall].
    rewrite Hworld, Htr, Htr1, <- app_assoc. reflexivity.
  - exists (test_events (params w) (yielded dl w)).
    rewrite test_world, after_test_trace, test_events_forward_inputs.
    split; [reflexivity|]. split; [reflexivity | apply Hinputs].
Qed.

End PassFacts.

(** ** The calls of an epoch, counted *)

Section CallCounts.

Context {C : Collaborators}.

Lemma count_steps_app (a b : list Event) :
  count_steps (a ++ b) = (count_steps a + count_steps b)%nat.
Proof. unfold count_steps. now rewrite filter_app, length_app. Qed.

Lemma count_forwards_app (a b : list Event) :
  count_forwards (a ++ b) = (count_forwards a + count_forwards b)%nat.
Proof. unfold count_forwards. now rewrite filter_app, length_app. Qed.

Lemma count_steps_pass (Xs : list (list Image)) :
  forall vs, length vs = length Xs -> count_steps (pass_events Xs vs) = length Xs.
Proof.
  induction Xs as [|X Xs IH]; intros [|v vs] H; simpl in H; try discriminate.
  - reflexivity.
  - cbn [pass_events]. rewrite count_steps_app, IH by lia. reflexivity.
Qed.

Lemma count_forwards_pass (Xs : list (list Image)) :
  forall vs, length vs = length Xs -> count_forwards (pass_events Xs vs) = length Xs.
Proof.
  induction Xs as [|X Xs IH]; intros [|v vs] H; simpl in H; try discriminate.
  - reflexivity.
  - cbn [pass_events]. rewrite count_forwards_app, IH by lia. reflexivity.
Qed.

Lemma count_steps_eval (Xs : list (list Image)) :
  forall vs, count_steps (eval_events Xs vs) = 0%nat.
Proof.
  induction Xs as [|X Xs IH]; intros [|v vs]; try reflexivity.
  cbn [eval_events]. rewrite count_steps_app, IH. reflexivity.
Qed.

Lemma count_forwards_eval (Xs : list (list Image)) :
  forall vs, length vs = length Xs -> count_forwards (eval_events Xs vs) = length Xs.
Proof.
  induction Xs as [|X Xs IH]; intros [|v vs] H; simpl in H; try discriminate.
  - reflexivity.
  - cbn [eval_events]. rewrite count_forwards_app, IH by lia. reflexivity.
Qed.

Lemma count_steps_test (p : list Q) (batches : list Batch) :
  count_steps (test_events p batches) = 0%nat.
Proof.
  unfold test_events. rewrite !count_steps_app, count_steps_eval. reflexivity.
Qed.

Lemma count_forwards_test (p : list Q) (batches : list Batch) :
  count_forwards (test_events p batches) = length batches.
Proof.
  unfold test_events.
  rewrite !count_forwards_app, count_forwards_eval by apply eval_losses_length.
  rewrite length_map. cbn. apply Nat.add_0_r.
Qed.

Lemma after_test_training (dl : DataLoader) (w : World) :
  training (after_test dl w) = false.
Proof. unfold after_test. destruct (shuffle dl); reflexivity. Qed.

Lemma bind_raised (A B : Type) (c : M A) (k : A -> M B)
    (w : World) (e : Exn) (w' : World) :
  c w = Raised e w' -> bind c k w = Raised e w'.
Proof. intros H. unfold bind. now rewrite H. Qed.

Lemma loop_of_epochs (report : nat -> nat -> bool) (tdl vdl : DataLoader)
    (n : nat) (w : World) (r : Run) (wn : World) :
  after_epochs (report n) tdl vdl n w = Ok r wn ->
  epoch_loop_with report tdl vdl n w = Ok r (emit (BestScore (best_score r)) wn).
Proof.
  intros H. unfold after_epochs in H. unfold epoch_loop_with.
  rewrite (bind_ok _ H). reflexivity.
Qed.

End CallCounts.

(** ** What the passes do to the parameters *)

Section ParameterInvariants.

Context {C : Collaborators}.

(** a relation between parameter vectors that every optimizer step keeps *)
Variable R : list Q -> list Q -> Prop.
Hypothesis R_refl : forall p, R p p.
Hypothesis R_trans : forall p q r, R p q -> R q r -> R p r.
Hypothesis R_step : forall p m X y, R p (sgd_update lr p (autograd p m X y)).

Lemma train_pass_invariant (batches : list Batch) :
  forall (acc : Q) (w : World) (acc' : Q) (w' : World),
    grad_enabled w = true ->
    for_each batches train_step acc w = Ok acc' w' ->
    R (params w) (params w').
Proof.
  induction batches as [|[X y] batches IH]; intros acc w acc' w' Hg Hrun.
  - cbn [for_each] in Hrun. unfold ret in Hrun. injection Hrun as _ <-. apply R_refl.
  - cbn [for_each] in Hrun. unfold bind at 1 in Hrun.
    rewrite (train_step_run X y acc w Hg) in Hrun.
    apply IH in Hrun; [|reflexivity]. cbn [params] in Hrun.
    eapply R_trans; [apply R_step | exact Hrun].
Qed.

Lemma train_invariant (dl : DataLoader) (w : World) (avg : Q) (w' : World) :
  grad_enabled w = true -> train dl w = Ok avg w' -> R (params w) (params w').
Proof.
  intros Hg. unfold train, bind at 1. unfold model_train, modify.
  unfold bind at 1. rewrite iter_dataloader_run.
  set (w0 := log EvTrainMode (set_training true w)).
  set (w1 := if shuffle dl then set_rng (next_seed (rng w0)) w0 else w0).
  assert (Hg1 : grad_enabled w1 = true) by (subst w1 w0; destruct (shuffle dl); exact Hg).
  assert (Hp1 : params w1 = params w) by (subst w1 w0; destruct (shuffle dl); reflexivity).
  unfold bind at 1.
  destruct (for_each (yielded dl w0) train_step 0 w1) as [acc wp|e wp] eqn:E;
    [|discriminate].
  unfold bind, py_div, raise, ret.
  destruct (len_dataloader dl =? 0)%nat; [discriminate|].
  intros H. injection H as _ <-. rewrite <- Hp1.
  exact (train_pass_invariant _ _ _ Hg1 E).
Qed.

Variable report : nat -> bool.
Variables tdl vdl : DataLoader.

Hypothesis Hperm : sampler_permutes.
Hypothesis Htdl : loader_ok tdl.
Hypothesis Hvdl : loader_ok vdl.

(** The first [n] epochs: the calls they make and the world they leave. *)
Lemma epochs_ledger (w : World) :
  grad_enabled w = true ->
  forall n, exists r wn tr,
    after_epochs report tdl vdl n w = Ok r wn /\
    grad_enabled wn = true /\
    trace wn = trace w ++ tr /\
    count_steps tr = (n * len_dataloader tdl)%nat /\
    count_forwards tr = (n * (len_dataloader tdl + len_dataloader vdl))%nat /\
    R (params w) (params wn) /\
    training wn = (if (n =? 0)%nat then training w else false).
Proof.
  intros Hg n.
  induction n as [|n (r & wn & tr & Hrun & Hgn & Htr & Hst & Hfw & HR & Hm)].
  - exists init_run, w, []. rewrite app_nil_r. repeat split; auto.
  - destruct (epoch_body_run report Hperm Htdl Hvdl n r wn Hgn)
      as (tl & w1 & v & vs & Htrain & Hg1 & _ & Hlen & Htr1 & _ & Hbody).
    pose proof (@train_invariant tdl wn tl w1 Hgn Htrain) as HR1.
    destruct Htdl as [Hbt _], Hvdl as [Hbv _].
    pose proof (yielded_length tdl wn Hperm Hbt) as Hyt.
    pose proof (yielded_length vdl w1 Hperm Hbv) as Hyv.
    exists (mkRun (py_max (best_score r) (fst v))
                  (train_losses r ++ [tl]) (val_losses r ++ [snd v])).
    exists (if report n
            then emit (Progress (n + 1) tl (snd v) (fst v)) (after_test vdl w1)
            else after_test vdl w1).
    exists (tr ++ (EvTrainMode :: pass_events (map fst (yielded tdl wn)) vs)
               ++ test_events (params w1) (yielded vdl w1)).
    split; [rewrite after_epochs_S, (bind_ok _ Hrun); exact Hbody|].
    assert (Hyt' : length (map fst (yielded tdl wn)) = len_dataloader tdl)
      by (rewrite length_map; exact Hyt).
    assert (Hvs : length vs = length (map fst (yielded tdl wn)))
      by (etransitivity; [exact Hlen | symmetry; exact Hyt']).
    assert (Hc1 : count_steps (pass_events (map fst (yielded tdl wn)) vs)
                  = len_dataloader tdl)
      by (rewrite (count_steps_pass _ _ Hvs); exact Hyt').
    assert (Hc2 : count_forwards (pass_events (map fst (yielded tdl wn)) vs)
                  = len_dataloader tdl)
      by (rewrite (count_forwards_pass _ _ Hvs); exact Hyt').
    assert (Hc3 : count_forwards (test_events (params w1) (yielded vdl w1))
                  = len_dataloader vdl)
      by (rewrite count_forwards_test; exact Hyv).
    split; [|split; [|split; [|split; [|split]]]].
    + destruct (report n); [unfold emit; cbn [grad_enabled]|];
        rewrite after_test_grad_enabled; exact Hg1.
    + destruct (report n); [unfold emit; cbn [trace]|];
        rewrite after_test_trace, Htr1, Htr, <- !app_assoc; reflexivity.
    + rewrite !count_steps_app, Hst, count_steps_test.
      change (EvTrainMode :: pass_events (map fst (yielded tdl wn)) vs)
        with ([EvTrainMode] ++ pass_events (map fst (yielded tdl wn)) vs).
      rewrite count_steps_app, Hc1. cbn. lia.
    + rewrite !count_forwards_app, Hfw, Hc3.
      change (EvTrainMode :: pass_events (map fst (yielded tdl wn)) vs)
        with ([EvTrainMode] ++ pass_events (map fst (yielded tdl wn)) vs).
      rewrite count_forwards_app, Hc2. cbn. lia.
    + apply (R_trans HR).
      destruct (report n); [unfold emit; cbn [params]|];
        rewrite after_test_params; exact HR1.
    + cbn [Nat.eqb].
      destruct (report n); [unfold emit; cbn [training]|];
        apply after_test_training.
Qed.

End ParameterInvariants.

(** ** Further results on the epoch loops *)

Lemma Forall2_Qeq_refl (p : list Q) : Forall2 Qeq p p.
Proof. induction p; constructor; [reflexivity | assumption]. Qed.

Lemma Forall2_Qeq_trans (p q r : list Q) :
  Forall2 Qeq p q -> Forall2 Qeq q r -> Forall2 Qeq p r.
Proof.
  intros H. revert r. induction H as [|a b p q Hab _ IH]; intros r Hr.
  - inversion Hr. constructor.
  - inversion Hr as [|b' c q' r' Hbc Hqr]; subst. constructor.
    + now rewrite Hab.
    + now apply IH.
Qed.

Lemma sgd_update_zero (lr : Q) (p g : list Q) :
  Forall (fun x => x == 0) g -> Forall2 Qeq p (sgd_update lr p g).
Proof.
  intros Hg. revert p. induction Hg as [|x g Hx _ IH]; intros [|a p]; cbn [sgd_update].
  - constructor.
  - apply Forall2_Qeq_refl.
  - constructor.
  - constructor; [rewrite Hx; ring | apply IH].
Qed.

Lemma sgd_update_length (lr : Q) (p g : list Q) :
  length p = length (sgd_update lr p g).
Proof.
  revert g. induction p as [|a p IH]; intros [|x g]; cbn [sgd_update length];
    try reflexivity.
  f_equal. apply IH.
Qed.

Lemma fold_py_max_in (l : list Q) :
  forall b, fold_left py_max l b = b \/ In (fold_left py_max l b) l.
Proof.
  induction l as [|a l IH]; intros b; [now left|].
  cbn [fold_left]. destruct (IH (py_max b a)) as [E|Hin].
  - rewrite E. unfold py_max. destruct (Qgt_bool a b); [right; now left | now left].
  - right. now right.
Qed.

Lemma printed_epochs_progress_lines (report : nat -> bool) (recs : list (Q * Q * Q)) :
  forall s,
    printed_epochs (progress_lines report s recs)
    = map (fun k => (k + 1)%nat) (filter report (seq s (length recs))).
Proof.
  induction recs as [|rec recs IH]; intros s; [reflexivity|].
  cbn [progress_lines length seq filter]. unfold printed_epochs in *.
  rewrite flat_map_app, IH. unfold progress_line.
  destruct (report s); reflexivity.
Qed.

Section LoopFacts.

Context {C : Collaborators}.

Variable report : nat -> nat -> bool.
Variables tdl vdl : DataLoader.

(** A run of the loop makes [len(train_dataloader)] optimizer steps per
    epoch and none in validation; it calls the model once per training
    batch and once per validation batch. *)
Theorem loop_counts_calls (n : nat) (w : World) :
  sampler_permutes -> loader_ok tdl -> loader_ok vdl -> grad_enabled w = true ->
  exists r w' tr,
    epoch_loop_with report tdl vdl n w = Ok r w' /\
    trace w' = trace w ++ tr /\
    count_steps tr = (n * len_dataloader tdl)%nat /\
    count_forwards tr = (n * (len_dataloader tdl + len_dataloader vdl))%nat.
Proof.
  intros Hperm Htdl Hvdl Hg.
  destruct (@epochs_ledger C (fun _ _ => True) (fun _ => I) (fun _ _ _ _ _ => I)
              (fun _ _ _ _ => I) (report n) tdl vdl Hperm Htdl Hvdl w Hg n)
    as (r & wn & tr & Hrun & _ & Htr & Hst & Hfw & _).
  exists r, (emit (BestScore (best_score r)) wn), tr.
  split; [now apply loop_of_epochs|].
  split; [exact Htr|]. split; [exact Hst | exact Hfw].
Qed.

(** After a run of at least one epoch the model is in evaluation mode,
    whatever its mode was before, and gradient tracking is on again: the
    last call of an epoch is [test]. *)
Theorem loop_leaves_eval_mode (n : nat) (w : World) :
  sampler_permutes -> loader_ok tdl -> loader_ok vdl -> grad_enabled w = true ->
  (0 < n)%nat ->
  exists r w',
    epoch_loop_with report tdl vdl n w = Ok r w' /\
    training w' = false /\ grad_enabled w' = true.
Proof.
  intros Hperm Htdl Hvdl Hg Hn.
  destruct (@epochs_ledger C (fun _ _ => True) (fun _ => I) (fun _ _ _ _ _ => I)
              (fun _ _ _ _ => I) (report n) tdl vdl Hperm Htdl Hvdl w Hg n)
    as (r & wn & tr & Hrun & Hgn & _ & _ & _ & _ & Hm).
  exists r, (emit (BestScore (best_score r)) wn).
  split; [now apply loop_of_epochs|].
  unfold emit. cbn [training grad_enabled]. split; [|exact Hgn].
  rewrite Hm. destruct n; [lia | reflexivity].
Qed.

(** Where every gradient is zero, training moves nothing: a call of
    [train] and a whole run of the loop leave every parameter at its
    value. *)
Theorem zero_gradients_leave_parameters (n : nat) (w : World) :
  gradients_vanish ->
  sampler_permutes -> loader_ok tdl -> loader_ok vdl -> grad_enabled w = true ->
  (exists avg w1, train tdl w = Ok avg w1 /\ Forall2 Qeq (params w) (params w1)) /\
  (exists r w', epoch_loop_with report tdl vdl n w = Ok r w' /\
                Forall2 Qeq (params w) (params w')).
Proof.
  intros Hzero Hperm Htdl Hvdl Hg.
  assert (Hstep : forall p m X y,
             Forall2 Qeq p (sgd_update lr p (autograd p m X y)))
    by (intros p m X y; apply sgd_update_zero, Hzero).
  split.
  - destruct Htdl as [Hk Hd].
    destruct (@train_run C tdl w Hperm Hk Hd Hg) as (avg & w1 & vs & Hrun & _).
    exists avg, w1. split; [exact Hrun|].
    exact (@train_invariant C _ Forall2_Qeq_refl Forall2_Qeq_trans Hstep
             tdl w avg w1 Hg Hrun).
  - destruct (@epochs_ledger C _ Forall2_Qeq_refl Forall2_Qeq_trans Hstep
                (report n) tdl vdl Hperm Htdl Hvdl w Hg n)
      as (r & wn & tr & Hrun & _ & _ & _ & _ & HR & _).
    exists r, (emit (BestScore (best_score r)) wn).
    split; [now apply loop_of_epochs | exact HR].
Qed.

(** Training never changes the number of parameters: after a call of
    [train] and after a whole run of the loop the model has as many
    parameters as before. *)
Theorem training_keeps_parameter_count (n : nat) (w : World) :
  sampler_permutes -> loader_ok tdl -> loader_ok vdl -> grad_enabled w = true ->
  (exists avg w1, train tdl w = Ok avg w1 /\ length (params w1) = length (params w)) /\
  (exists r w', epoch_loop_with report tdl vdl n w = Ok r w' /\
                length (params w') = length (params w)).
Proof.
  intros Hperm Htdl Hvdl Hg.
  set (R := fun p q : list Q => length p = length q).
  assert (Hrefl : forall p, R p p) by reflexivity.
  assert (Htrans : forall p q r, R p q -> R q r -> R p r)
    by (unfold R; intros p q r H1 H2; congruence).
  assert (Hstep : forall p m X y, R p (sgd_update lr p (autograd p m X y)))
    by (intros p m X y; apply sgd_update_length).
  split.
  - destruct Htdl as [Hk Hd].
    destruct (@train_run C tdl w Hperm Hk Hd Hg) as (avg & w1 & vs & Hrun & _).
    exists avg, w1. split; [exact Hrun|]. symmetry.
    exact (@train_invariant C R Hrefl Htrans Hstep tdl w avg w1 Hg Hrun).
  - destruct (@epochs_ledger C R Hrefl Htrans Hstep
                (report n) tdl vdl Hperm Htdl Hvdl w Hg n)
      as (r & wn & tr & Hrun & _ & _ & _ & _ & HR & _).
    exists r, (emit (BestScore (best_score r)) wn).
    split; [now apply loop_of_epochs | symmetry; exact HR].
Qed.

Lemma train_empty_world (dl : DataLoader) (w : World) :
  sampler_permutes -> dataset dl = [] ->
  train dl w = Raised ZeroDivisionError (after_empty_train dl w).
Proof.
  intros Hperm Hd.
  unfold train, bind at 1. unfold model_train, modify.
  unfold bind at 1. rewrite iter_dataloader_run.
  assert (Hy : forall w0, yielded dl w0 = []).
  { intros w0. unfold yielded. rewrite Hd.
    destruct (shuffle dl).
    - rewrite (Permutation_nil (Permutation_sym (Hperm (rng w0) []))). reflexivity.
    - reflexivity. }
  rewrite Hy. cbn [for_each]. unfold bind, ret.
  unfold len_dataloader. rewrite Hd. cbn [length].
  replace (ceil_div 0 (batch_size dl)) with 0%nat.
  - rewrite py_div_zero. reflexivity.
  - unfold ceil_div. destruct (batch_size dl) as [|[|k]]; try reflexivity.
    symmetry. apply Nat.div_small. lia.
Qed.

(** A run of the loop over a training loader without data stops in its
    first call of [train] with [ZeroDivisionError]: the model has been put
    in training mode and nothing else has happened, no forward pass, no
    change of a parameter, no line of output, whatever the validation
    loader holds. *)
Theorem loop_stops_without_training_data (n : nat) (w : World) :
  sampler_permutes -> dataset tdl = [] -> (0 < n)%nat ->
  exists w',
    epoch_loop_with report tdl vdl n w = Raised ZeroDivisionError w' /\
    trace w' = trace w ++ [EvTrainMode] /\
    params w' = params w /\ stdout w' = stdout w.
Proof.
  intros Hperm Hd Hn. exists (after_empty_train tdl w). split.
  - unfold epoch_loop_with, epochs_from. apply bind_raised.
    destruct n as [|n]; [lia|]. cbn [seq for_each]. apply bind_raised.
    unfold epoch_body. apply bind_raised. now apply train_empty_world.
  - unfold after_empty_train. cbv zeta. destruct (shuffle tdl); repeat split.
Qed.

(** A run of the loop over a validation loader without data stops in its
    first epoch with [ZeroDivisionError], after a whole training pass: the
    parameters are those the pass left, and nothing has been printed, not
    the best score either. *)
Theorem loop_stops_without_validation_data (n : nat) (w : World) :
  sampler_permutes -> loader_ok tdl -> dataset vdl = [] ->
  grad_enabled w = true -> (0 < n)%nat ->
  exists tl w1 w' tr,
    train tdl w = Ok tl w1 /\
    epoch_loop_with report tdl vdl n w = Raised ZeroDivisionError w' /\
    params w' = params w1 /\ stdout w' = stdout w /\
    trace w' = trace w ++ tr /\
    count_steps tr = len_dataloader tdl.
Proof.
  intros Hperm [Hk Hd] Hv Hg Hn.
  destruct (@train_run C tdl w Hperm Hk Hd Hg)
    as (tl & w1 & vs & Htrain & Hlen & Htr & _ & _ & _ & _ & Hs & _).
  exists tl, w1, (after_test vdl w1).
  exists ((EvTrainMode :: pass_events (map fst (yielded tdl w)) vs)
            ++ test_events (params w1) (yielded vdl w1)).
  split; [exact Htrain|]. split.
  - unfold epoch_loop_with, epochs_from. apply bind_raised.
    destruct n as [|n]; [lia|]. cbn [seq for_each]. apply bind_raised.
    unfold epoch_body. rewrite (bind_ok _ Htrain). apply bind_raised.
    now apply test_empty.
  - rewrite after_test_params, after_test_stdout, after_test_trace, Htr, <- app_assoc.
    repeat split; try assumption.
    assert (Hyt : length (map fst (yielded tdl w)) = len_dataloader tdl)
      by (rewrite length_map; now apply yielded_length).
    rewrite count_steps_app, count_steps_test.
    change (EvTrainMode :: pass_events (map fst (yielded tdl w)) vs)
      with ([EvTrainMode] ++ pass_events (map fst (yielded tdl w)) vs).
    rewrite count_steps_app, count_steps_pass
      by (etransitivity; [exact Hlen | symmetry; exact Hyt]).
    rewrite Hyt. cbn. lia.
Qed.

Lemma test_accuracy_range (dl : DataLoader) (w : World) (v : Q * Q) (w' : World) :
  sampler_permutes -> loader_ok dl -> test dl w = Ok v w' ->
  0 <= fst v /\ fst v <= 100.
Proof.
  intros Hperm Hok Hrun.
  destruct (test_accuracy_value w Hok) as (acc & loss & Hrun' & Hacc).
  rewrite Hrun in Hrun'. injection Hrun' as -> _. cbn [fst].
  destruct Hok as [Hk Hd].
  assert (Hpos : (0 < length (dataset dl))%nat)
    by (destruct (dataset dl); [congruence | cbn; lia]).
  pose proof (total_correct_yielded_le (params w) false dl w Hperm Hk) as Hle.
  destruct (accuracy_bounds Hpos Hle) as [H0 H100].
  rewrite Hacc. split; assumption.
Qed.

(** The best score a run of the loop ends with lies between 0 and 100, and
    it is 0 or the validation accuracy of one of the epochs of the run. *)
Theorem best_score_attained (n : nat) (w : World) :
  sampler_permutes -> loader_ok tdl -> loader_ok vdl -> grad_enabled w = true ->
  exists r w',
    epoch_loop_with report tdl vdl n w = Ok r w' /\
    0 <= best_score r /\ best_score r <= 100 /\
    (best_score r = 0 \/
     exists k, (k < n)%nat /\
               val_accuracy_at (report n) tdl vdl k w = Some (best_score r)).
Proof.
  intros Hperm Htdl Hvdl Hg.
  destruct (best_score_final (report n) Hperm Htdl Hvdl w n Hg)
    as (accs & r & w' & Hrun & Hlen & Hacc & _ & Hfold & _).
  exists r, w'. split; [exact Hrun|].
  assert (Hcases : best_score r = 0 \/
                   exists k, (k < n)%nat /\
                     val_accuracy_at (report n) tdl vdl k w = Some (best_score r)).
  { rewrite Hfold. destruct (fold_py_max_in accs 0) as [E|Hin]; [now left|].
    right. apply In_nth_error in Hin. destruct Hin as [k Hk].
    exists k. split; [|now apply Hacc].
    rewrite <- Hlen. apply nth_error_Some. congruence. }
  assert (Hrange : 0 <= best_score r /\ best_score r <= 100).
  { destruct Hcases as [E|(k & _ & Hk)].
    - rewrite E. split; [apply Qle_refl | discriminate].
    - unfold val_accuracy_at, epoch_record in Hk.
      destruct (after_epochs (report n) tdl vdl k w) as [rk wk|e wk];
        [|discriminate Hk].
      destruct (train tdl wk) as [tl w1|e w1]; [|discriminate Hk].
      destruct (test vdl w1) as [v w2|e w2] eqn:Htest; [|discriminate Hk].
      cbn in Hk. injection Hk as Hk. rewrite <- Hk.
      exact (@test_accuracy_range vdl w1 v w2 Hperm Hvdl Htest). }
  destruct Hrange as [H0 H100]. repeat split; assumption.
Qed.

End LoopFacts.

(** Whatever the data, the first copy of the loop prints twenty progress
    lines, for the epochs 1, 6, 11, ..., 96, and the exercise copy prints
    these and one for epoch 100; each is followed by the line of the best
    score only. *)
Theorem loops_print_epoch_numbers {C : Collaborators}
    (tdl vdl : DataLoader) (w : World) :
  sampler_permutes -> loader_ok tdl -> loader_ok vdl -> grad_enabled w = true ->
  (exists r w' out,
      epoch_loop tdl vdl w = Ok r w' /\
      stdout w' = stdout w ++ out ++ [BestScore (best_score r)] /\
      printed_epochs out = map (fun i => (5 * i + 1)%nat) (seq 0 20) /\
      length out = 20%nat) /\
  (exists r w' out,
      epoch_loop_exercise tdl vdl w = Ok r w' /\
      stdout w' = stdout w ++ out ++ [BestScore (best_score r)] /\
      printed_epochs out = map (fun i => (5 * i + 1)%nat) (seq 0 20) ++ [100%nat] /\
      length out = 21%nat).
Proof.
  intros Hperm Htdl Hvdl Hg.
  assert (Hlines : forall (rep : nat -> bool) (recs : list (Q * Q * Q)) s,
             length (progress_lines rep s recs)
             = length (printed_epochs (progress_lines rep s recs))).
  { intros rep recs. induction recs as [|rec recs IH]; intros s; [reflexivity|].
    cbn [progress_lines]. unfold printed_epochs in *.
    rewrite flat_map_app, !length_app, IH. unfold progress_line.
    destruct (rep s); reflexivity. }
  split.
  - destruct (loop_prints_progress (report_demo epochs) Hperm Htdl Hvdl w epochs Hg)
      as (recs & r & w' & Hrun & Hlen & _ & Hout & _).
    exists r, w', (progress_lines (report_demo epochs) 0 recs).
    split; [exact Hrun|]. split; [exact Hout|].
    rewrite Hlines, printed_epochs_progress_lines, Hlen.
    split; reflexivity.
  - destruct (loop_prints_progress (report_exercise epochs) Hperm Htdl Hvdl w epochs Hg)
      as (recs & r & w' & Hrun & Hlen & _ & Hout & _).
    exists r, w', (progress_lines (report_exercise epochs) 0 recs).
    split; [exact Hrun|]. split; [exact Hout|].
    rewrite Hlines, printed_epochs_progress_lines, Hlen.
    split; reflexivity.
Qed.

(** ** The further results at the fixtures *)

Lemma always_zero_per_sample : @per_sample_model Fixtures.always_zero.
Proof.
  split.
  - intros p m X1 X2. cbn. apply map_app.
  - intros p m x. reflexivity.
Qed.

Lemma stationary_sampler_permutes : @sampler_permutes FurtherFixtures.stationary.
Proof. intros s l. cbn. apply Permutation_sym, Permutation_rev. Qed.

Lemma stationary_gradients_vanish : @gradients_vanish FurtherFixtures.stationary.
Proof.
  intros p m X y. cbn. apply Forall_forall. intros g Hg.
  apply in_map_iff in Hg. destruct Hg as (x & <- & _). reflexivity.
Qed.

Lemma train5_ok : @loader_ok FurtherFixtures.stationary FurtherFixtures.train5.
Proof. split; [cbn; lia | discriminate]. Qed.


Lemma accuracy_ignores_batching_witness :
  exists acc loss w',
    test (C := Fixtures.always_zero) Fixtures.val10 Fixtures.world0 = Ok (acc, loss) w' /\
    acc == 30.
Proof.
  destruct (@accuracy_ignores_batching Fixtures.always_zero Fixtures.val10
              Fixtures.world0 always_zero_per_sample fixture_sampler_permutes val10_ok)
    as (acc & loss & w' & Hrun & Hacc).
  exists acc, loss, w'. split; [exact Hrun|]. rewrite Hacc. reflexivity.
Defined.

Lemma batches_within_batch_size_witness :
  Forall (fun b : @Batch Fixtures.always_zero =>
            (0 < length (fst b) <= 4)%nat /\ length (snd b) = length (fst b))
         (yielded Fixtures.train8 Fixtures.world0) /\
  (forall i b, nth_error (yielded Fixtures.train8 Fixtures.world0) i = Some b ->
               (S i < length (yielded Fixtures.train8 Fixtures.world0))%nat ->
               length (fst b) = 4%nat) /\
  (exists tr,
      trace (world_of (train Fixtures.train8 Fixtures.world0))
      = trace Fixtures.world0 ++ tr /\
      Forall (fun X => (0 < length X <= 4)%nat) (forward_inputs tr)) /\
  (exists tr,
      trace (world_of (test Fixtures.train8 Fixtures.world0))
      = trace Fixtures.world0 ++ tr /\
      forward_inputs tr = map fst (yielded Fixtures.train8 Fixtures.world0) /\
      Forall (fun X => (0 < length X <= 4)%nat) (forward_inputs tr)).
Proof.
  exact (@batches_within_batch_size Fixtures.always_zero Fixtures.train8
           Fixtures.world0 (proj1 train8_ok)).
Defined.

Lemma loop_counts_calls_witness :
  exists r w' tr,
    epoch_loop_with (C := Fixtures.always_zero) report_demo
      Fixtures.train8 Fixtures.val10 7 Fixtures.world0 = Ok r w' /\
    trace w' = trace Fixtures.world0 ++ tr /\
    count_steps tr = 14%nat /\ count_forwards tr = 35%nat.
Proof.
  exact (@loop_counts_calls Fixtures.always_zero report_demo
           Fixtures.train8 Fixtures.val10 7 Fixtures.world0
           fixture_sampler_permutes train8_ok val10_ok eq_refl).
Defined.

Lemma loop_leaves_eval_mode_witness :
  exists r w',
    epoch_loop_with (C := Fixtures.scripted) report_demo
      Fixtures.train4 Fixtures.val20 3 Fixtures.world1 = Ok r w' /\
    training w' = false /\ grad_enabled w' = true.
Proof.
  apply (@loop_leaves_eval_mode Fixtures.scripted report_demo
           Fixtures.train4 Fixtures.val20 3 Fixtures.world1
           scripted_sampler_permutes train4_ok val20_ok eq_refl).
  lia.
Defined.

Lemma zero_gradients_leave_parameters_witness :
  (exists avg w1,
      train (C := FurtherFixtures.stationary) FurtherFixtures.train5
            FurtherFixtures.world2 = Ok avg w1 /\
      Forall2 Qeq (params FurtherFixtures.world2) (params w1)) /\
  (exists r w',
      epoch_loop_with (C := FurtherFixtures.stationary) report_exercise
        FurtherFixtures.train5 FurtherFixtures.train5 4 FurtherFixtures.world2
      = Ok r w' /\
      Forall2 Qeq (params FurtherFixtures.world2) (params w')).
Proof.
  exact (@zero_gradients_leave_parameters FurtherFixtures.stationary report_exercise
           FurtherFixtures.train5 FurtherFixtures.train5 4 FurtherFixtures.world2
           stationary_gradients_vanish stationary_sampler_permutes
           train5_ok train5_ok eq_refl).
Defined.

Lemma training_keeps_parameter_count_witness :
  (exists avg w1,
      train (C := Fixtures.always_zero) Fixtures.train8 Fixtures.world0 = Ok avg w1 /\
      length (params w1) = 2%nat) /\
  (exists r w',
      epoch_loop_with (C := Fixtures.always_zero) report_demo
        Fixtures.train8 Fixtures.val10 3 Fixtures.world0 = Ok r w' /\
      length (params w') = 2%nat).
Proof.
  exact (@training_keeps_parameter_count Fixtures.always_zero report_demo
           Fixtures.train8 Fixtures.val10 3 Fixtures.world0
           fixture_sampler_permutes train8_ok val10_ok eq_refl).
Defined.

Lemma loop_stops_without_training_data_witness :
  exists w',
    epoch_loop (C := Fixtures.always_zero) Fixtures.empty_loader Fixtures.val10
               Fixtures.world0 = Raised ZeroDivisionError w' /\
    trace w' = trace Fixtures.world0 ++ [EvTrainMode] /\
    params w' = params Fixtures.world0 /\ stdout w' = stdout Fixtures.world0.
Proof.
  apply (@loop_stops_without_training_data Fixtures.always_zero report_demo
           Fixtures.empty_loader Fixtures.val10 epochs Fixtures.world0
           fixture_sampler_permutes eq_refl).
  unfold epochs. lia.
Defined.

Lemma loop_stops_without_validation_data_witness :
  exists tl w1 w' tr,
    train (C := Fixtures.always_zero) Fixtures.train8 Fixtures.world0 = Ok tl w1 /\
    epoch_loop (C := Fixtures.always_zero) Fixtures.train8 Fixtures.empty_loader
               Fixtures.world0 = Raised ZeroDivisionError w' /\
    params w' = params w1 /\ stdout w' = stdout Fixtures.world0 /\
    trace w' = trace Fixtures.world0 ++ tr /\
    count_steps tr = len_dataloader Fixtures.train8.
Proof.
  apply (@loop_stops_without_validation_data Fixtures.always_zero report_demo
           Fixtures.train8 Fixtures.empty_loader epochs Fixtures.world0
           fixture_sampler_permutes train8_ok eq_refl eq_refl).
  unfold epochs. lia.
Defined.

Lemma best_score_attained_witness :
  exists r w',
    epoch_loop_with (C := Fixtures.scripted) report_demo
      Fixtures.train4 Fixtures.val20 5 Fixtures.world1 = Ok r w' /\
    0 <= best_score r /\ best_score r <= 100 /\
    (best_score r = 0 \/
     exists k, (k < 5)%nat /\
               val_accuracy_at (report_demo 5) Fixtures.train4 Fixtures.val20 k
                 Fixtures.world1 = Some (best_score r)).
Proof.
  exact (@best_score_attained Fixtures.scripted report_demo
           Fixtures.train4 Fixtures.val20 5 Fixtures.world1
           scripted_sampler_permutes train4_ok val20_ok eq_refl).
Defined.

Lemma loops_print_epoch_numbers_witness :
  (exists r w' out,
      epoch_loop (C := Fixtures.always_zero) Fixtures.train8 Fixtures.val10
                 Fixtures.world0 = Ok r w' /\
      stdout w' = stdout Fixtures.world0 ++ out ++ [BestScore (best_score r)] /\
      printed_epochs out = map (fun i => (5 * i + 1)%nat) (seq 0 20) /\
      length out = 20%nat) /\
  (exists r w' out,
      epoch_loop_exercise (C := Fixtures.always_zero) Fixtures.train8 Fixtures.val10
                          Fixtures.world0 = Ok r w' /\
      stdout w' = stdout Fixtures.world0 ++ out ++ [BestScore (best_score r)] /\
      printed_epochs out = map (fun i => (5 * i + 1)%nat) (seq 0 20) ++ [100%nat] /\
      length out = 21%nat).
Proof.
  exact (@loops_print_epoch_numbers Fixtures.always_zero
           Fixtures.train8 Fixtures.val10 Fixtures.world0
           fixture_sampler_permutes train8_ok val10_ok eq_refl).
Defined.

(** ** [train] as gradient descent *)

Section DescentFacts.

Context {C : Collaborators}.

Lemma train_pass_sgd (batches : list Batch) :
  forall (acc : Q) (w : World),
    grad_enabled w = true -> training w = true ->
    exists acc' w',
      for_each batches train_step acc w = Ok acc' w' /\
      params w' = fst (fst (sgd_pass (params w) (grads w) batches)) /\
      grads w' = snd (fst (sgd_pass (params w) (grads w) batches)) /\
      acc' == acc + Qsum (snd (sgd_pass (params w) (grads w) batches)).
Proof.
  induction batches as [|[X y] batches IH]; intros acc w Hg Hm.
  - exists acc, w. cbn. repeat split. ring.
  - cbn [for_each]. unfold bind at 1. rewrite (train_step_run X y acc w Hg), Hm.
    match goal with |- context [for_each batches train_step ?a ?w1] =>
      destruct (IH a w1 eq_refl eq_refl) as (acc' & w' & Hrun & Hp & Hgr & Hacc)
    end.
    cbn [params grads] in Hp, Hgr, Hacc.
    exists acc', w'. split; [exact Hrun|].
    cbn [sgd_pass fst snd].
    destruct (sgd_pass (sgd_update lr (params w) (autograd (params w) true X y))
                       (autograd (params w) true X y) batches) as [[pf gf] vs].
    cbn [fst snd] in *. repeat split; try assumption.
    rewrite Hacc. cbn [Qsum fold_right]. fold (Qsum vs). ring.
Qed.

(** A call of [train] is one pass of plain gradient descent over the
    batches the loader yields: the parameters it leaves are the last
    iterate, the value it returns is the mean of the batch losses, each
    measured at the parameters before the step on that batch, and the
    gradient buffer holds the gradient of the last batch alone, nothing
    accumulated from earlier batches or from before the call. *)
Theorem train_is_sgd_pass (dl : DataLoader) (w : World) :
  sampler_permutes -> loader_ok dl -> grad_enabled w = true ->
  exists avg w' g,
    train dl w = Ok avg w' /\
    params w' = fst (fst (sgd_pass (params w) (grads w) (yielded dl w))) /\
    grads w' = g /\
    (forall g0, snd (fst (sgd_pass (params w) g0 (yielded dl w))) = g) /\
    avg == mean (snd (sgd_pass (params w) (grads w) (yielded dl w))) /\
    length (snd (sgd_pass (params w) (grads w) (yielded dl w))) = len_dataloader dl.
Proof.
  intros Hperm [Hk Hd] Hg.
  unfold train, bind at 1. unfold model_train, modify.
  unfold bind at 1. rewrite iter_dataloader_run.
  set (w0 := log EvTrainMode (set_training true w)).
  set (w1 := if shuffle dl then set_rng (next_seed (rng w0)) w0 else w0).
  assert (Hg1 : grad_enabled w1 = true) by (subst w1 w0; destruct (shuffle dl); exact Hg).
  assert (Hm1 : training w1 = true) by (subst w1 w0; destruct (shuffle dl); reflexivity).
  assert (Hp1 : params w1 = params w) by (subst w1 w0; destruct (shuffle dl); reflexivity).
  assert (Hgr1 : grads w1 = grads w) by (subst w1 w0; destruct (shuffle dl); reflexivity).
  assert (Hy : yielded dl w0 = yielded dl w) by reflexivity.
  destruct (train_pass_sgd (yielded dl w0) 0 w1 Hg1 Hm1)
    as (acc' & w' & Hrun & Hp & Hgr & Hacc).
  rewrite Hp1, Hgr1, Hy in Hp, Hgr, Hacc.
  unfold bind at 1. rewrite Hrun.
  unfold bind. rewrite py_div_ok by (apply len_dataloader_pos; assumption).
  assert (Hlen : forall p g0 (bs : list Batch),
             length (snd (sgd_pass p g0 bs)) = length bs).
  { intros p g0 bs. revert p g0. induction bs as [|b bs IH]; intros p g0; [reflexivity|].
    cbn [sgd_pass]. specialize (IH (sgd_update lr p (autograd p true (fst b) (snd b)))
                                   (autograd p true (fst b) (snd b))).
    destruct (sgd_pass _ _ bs) as [[pf gf] vs]. cbn [snd length] in *. now rewrite IH. }
  assert (Hlast : forall (bs : list Batch), bs <> [] ->
             forall p g0 g1, snd (fst (sgd_pass p g0 bs)) = snd (fst (sgd_pass p g1 bs))).
  { intros bs Hne p g0 g1. destruct bs as [|b bs]; [congruence|]. reflexivity. }
  assert (Hne : yielded dl w <> []).
  { intros E. pose proof (yielded_length dl w Hperm Hk) as Hl. rewrite E in Hl.
    pose proof (@len_dataloader_pos C dl Hk Hd) as Hpos. cbn in Hl. lia. }
  assert (Hlen' : length (snd (sgd_pass (params w) (grads w) (yielded dl w)))
                  = len_dataloader dl)
    by (rewrite Hlen; now apply yielded_length).
  exists (acc' / Q_of_nat (len_dataloader dl)), w', (grads w').
  split; [reflexivity|]. split; [exact Hp|]. split; [reflexivity|].
  split; [intros g0; rewrite Hgr; now apply Hlast|].
  split; [|exact Hlen'].
  unfold mean. rewrite Hlen', Hacc. unfold Q_of_nat.
  apply Qmult_comp; [ring | reflexivity].
Qed.

End DescentFacts.

Lemma train_is_sgd_pass_witness :
  exists avg w',
    train (C := Fixtures.scripted) Fixtures.train4 Fixtures.world1 = Ok avg w' /\
    Forall2 Qeq (params w') [1] /\ grads w' = [- (200 # 1)] /\ avg == 4.
Proof.
  destruct (@train_is_sgd_pass Fixtures.scripted Fixtures.train4 Fixtures.world1
              scripted_sampler_permutes train4_ok eq_refl)
    as (avg & w' & g & Hrun & Hp & Hgr & Hg0 & Havg & _).
  exists avg, w'. split; [exact Hrun|].
  split; [rewrite Hp; constructor; [vm_compute; reflexivity | constructor]|].
  split; [rewrite Hgr, <- (Hg0 []); reflexivity|].
  rewrite Havg. reflexivity.
Defined.
